(** * Hoos Who? (app.py): security layer and query pipeline

    A shallow embedding of the functional core of [app.py]:
    the input sanitizer ([sanitize_input]), the per-session rate limiter
    ([check_rate_limit]), the audit logger ([log_query]), the dispatcher
    ([get_claude_client], [query_claude]) and the chat-input handler at
    the bottom of the script, followed by the properties of the
    specification that concern them. *)

From Stdlib Require Import List ZArith NArith String Ascii Bool Arith Lia.
From Stdlib Require Import DecimalString Sorted Permutation.
From Stdlib Require DecimalNat.
Import ListNotations.

(** ** Python strings

    A Python [str] is a sequence of Unicode code points; [len] counts
    code points and slicing cuts between them. *)

Definition char := N.
Definition str := list char.

(** Embedding of an ASCII literal of the source. *)
Definition py (s : string) : str := map N_of_ascii (list_ascii_of_string s).
Arguments py s%_string.

Definition len (s : str) : nat := List.length s.

Definition str_eqb (a b : str) : bool :=
  if list_eq_dec N.eq_dec a b then true else false.

(** [s.startswith(p)] *)
Fixpoint startswith (p s : str) : bool :=
  match p, s with
  | [], _ => true
  | _ :: _, [] => false
  | a :: p', b :: s' => N.eqb a b && startswith p' s'
  end.

(** [sub in s] *)
Fixpoint contains (sub s : str) : bool :=
  startswith sub s ||
  match s with
  | [] => false
  | _ :: s' => contains sub s'
  end.

(** [s.replace(old, new)] for a non-empty [old]: the non-overlapping
    occurrences of [old] are replaced from left to right in a single
    scan.  [skip] counts the characters of a match that are still to be
    jumped over; the scan never looks at the text it has produced. *)
Fixpoint replace_scan (old new : str) (skip : nat) (s : str) : str :=
  match s with
  | [] => []
  | c :: s' =>
      match skip with
      | S k => replace_scan old new k s'
      | O =>
          if startswith old s
          then new ++ replace_scan old new (List.length old - 1) s'
          else c :: replace_scan old new 0 s'
      end
  end.

(** [s.replace(old, new)].  With an empty [old] Python puts [new] before
    every character and at the end. *)
Definition replace (old new s : str) : str :=
  match old with
  | [] => new ++ flat_map (fun c => c :: new) s
  | _ :: _ => replace_scan old new 0 s
  end.

(** [s.lower()] and [s.upper()].  The source applies them to the
    denylist constants only, which are ASCII; on ASCII they map the
    letters A-Z and a-z and leave every other character alone. *)
Definition lower_char (c : char) : char :=
  if (65 <=? c)%N && (c <=? 90)%N then (c + 32)%N else c.

Definition upper_char (c : char) : char :=
  if (97 <=? c)%N && (c <=? 122)%N then (c - 32)%N else c.

Definition lower (s : str) : str := map lower_char s.
Definition upper (s : str) : str := map upper_char s.

(** [s[:n]] *)
Definition slice_to (n : nat) (s : str) : str := firstn n s.

(** ** Python values

    [sanitize_input] is called on whatever the caller hands over, so its
    argument is a Python value, of which the script distinguishes the
    strings. *)

Inductive pyval : Type :=
| PyNone
| PyBool (b : bool)
| PyInt (z : Z)
| PyBytes (b : list N)
| PyStr (s : str).

(** Truth value of an object, as [not x] tests it. *)
Definition truthy (v : pyval) : bool :=
  match v with
  | PyNone => false
  | PyBool b => b
  | PyInt z => negb (z =? 0)%Z
  | PyBytes b => match b with [] => false | _ => true end
  | PyStr s => match s with [] => false | _ => true end
  end.

(** [isinstance(v, str)] *)
Definition isinstance_str (v : pyval) : bool :=
  match v with
  | PyStr _ => true
  | _ => false
  end.

(** ** Input sanitizer *)

Definition dangerous_patterns : list str :=
  [ py "<script>"; py "javascript:"; py "onerror="; py "onclick=";
    py "DROP TABLE"; py "DELETE FROM"; py "INSERT INTO"; py "SELECT *";
    py "<iframe>"; py "eval("; py "document.cookie" ].

(** One turn of the loop over [dangerous_patterns]. *)
Definition strip_pattern (sanitized pattern : str) : str :=
  let sanitized := replace pattern [] sanitized in
  let sanitized := replace (lower pattern) [] sanitized in
  let sanitized := replace (upper pattern) [] sanitized in
  sanitized.

Definition sanitize_input (user_input : pyval) : str :=
  if negb (truthy user_input) || negb (isinstance_str user_input)
  then []
  else
    match user_input with
    | PyStr s => slice_to 500 (fold_left strip_pattern dangerous_patterns s)
    | _ => []
    end.


(** ** Session state

    [st.session_state] holds three keys, each of which may be missing:
    the transcript, the rate window and the one-time-modal flag. *)

Inductive Role : Type := user | assistant.

Record ChatMessage : Type := { role : Role; content : str }.

(** A naive [datetime], counted in microseconds (its resolution); the
    difference of two of them is a [timedelta], counted likewise. *)
Definition datetime := Z.
Definition timedelta := Z.

Record session_state : Type := {
  messages : option (list ChatMessage);
  query_times : option (list datetime);
  shown_welcome : option bool
}.

(** A session that has just begun. *)
Definition new_session : session_state :=
  {| messages := None; query_times := None; shown_welcome := None |}.

Definition set_messages (v : list ChatMessage) (s : session_state) :=
  {| messages := Some v;
     query_times := query_times s;
     shown_welcome := shown_welcome s |}.

Definition set_query_times (v : list datetime) (s : session_state) :=
  {| messages := messages s;
     query_times := Some v;
     shown_welcome := shown_welcome s |}.

Definition set_shown_welcome (v : bool) (s : session_state) :=
  {| messages := messages s;
     query_times := query_times s;
     shown_welcome := Some v |}.

(** ** Rate limiter *)

(** [timedelta(hours=1)] *)
Definition one_hour : timedelta := 3600000000%Z.

(** The list comprehension that drops the old queries. *)
Definition prune (current_time : datetime) (times : list datetime)
  : list datetime :=
  filter (fun t => (current_time - t <? one_hour)%Z) times.

(** [check_rate_limit()], with [current_time] the value [datetime.now()]
    returns in it: the answer and the session it leaves behind. *)
Definition check_rate_limit (current_time : datetime) (s : session_state)
  : bool * session_state :=
  let s :=
    match query_times s with
    | None => set_query_times [] s
    | Some _ => s
    end in
  let kept :=
    match query_times s with
    | Some times => prune current_time times
    | None => []
    end in
  let s := set_query_times kept s in
  if 20 <=? List.length kept then (false, s)
  else (true, set_query_times (kept ++ [current_time]) s).

(** The timestamps a session holds. *)
Definition window (s : session_state) : list datetime :=
  match query_times s with
  | Some times => times
  | None => []
  end.

(** The sessions the rate limiter can meet: [query_times] is written by
    [check_rate_limit] only, so it is missing or is what some sequence
    of calls, at any clock readings, has left. *)
Inductive limiter_reachable : session_state -> Prop :=
| reach_new s : query_times s = None -> limiter_reachable s
| reach_check s t : limiter_reachable s ->
                    limiter_reachable (snd (check_rate_limit t s))
| reach_other s m w : limiter_reachable s ->
                      limiter_reachable
                        {| messages := m;
                           query_times := query_times s;
                           shown_welcome := w |}.

(** ** Exceptions, effects and the world outside

    [st.stop()] and [st.rerun()] leave the script by raising; Streamlit
    derives their exceptions from [BaseException], so that
    [except Exception] lets them through. *)

Inductive exn : Type :=
| StopException
| RerunException
| BaseExc (name : string)
| Exc (name : string) (message : str).

(** [isinstance(e, Exception)] *)
Definition is_Exception (e : exn) : bool :=
  match e with
  | Exc _ _ => true
  | _ => false
  end.

(** [str(e)] *)
Definition str_of_exn (e : exn) : str :=
  match e with
  | Exc _ message => message
  | _ => []
  end.

Inductive result (A : Type) : Type :=
| Ok (a : A)
| Raise (e : exn).
Arguments Ok {A} a.
Arguments Raise {A} e.

(** One row of [student_data.csv]. *)
Record StudentRecord : Type := {
  name : str;
  current_company : str;
  current_role : str;
  past_companies : str;
  industries : str;
  contact : str
}.

Definition DataFrame := list StudentRecord.

(** The client and the request and reply of [client.messages.create]. *)
Record Anthropic : Type := { client_api_key : str }.

Record Request : Type := {
  model : str;
  max_tokens : Z;
  system : str;
  request_messages : list ChatMessage
}.

Inductive ContentBlock : Type :=
| TextBlock (text : str)
| OtherBlock.

Record Message : Type := { message_content : list ContentBlock }.

(** What the libraries and the environment answer during one run of the
    script: [os.environ.get('ANTHROPIC_API_KEY')], [datetime.now()],
    [pd.read_csv('student_data.csv')], [json.dumps] of the records of a
    data frame with [indent=2], and the hosted model. *)
Record World : Type := {
  environ_api_key : option str;
  datetime_now : datetime;
  read_csv : result DataFrame;
  json_dumps_records : DataFrame -> result str;
  messages_create : Anthropic -> Request -> result Message
}.

Inductive log_level : Type := INFO | WARNING | ERROR.

(** What a run does that can be seen from outside, in order. *)
Inductive event : Type :=
| StError (body : str)
| StWarning (body : str)
| Logged (level : log_level) (line : str)
| ApiCall (client : Anthropic) (request : Request).

Record machine : Type := {
  session : session_state;
  trace : list event
}.

(** Computations of the script: they read and write the session, leave
    events, and return or raise.  What was written before a raise stays
    written. *)
Definition M (A : Type) : Type := machine -> result A * machine.

Definition ret {A} (a : A) : M A := fun m => (Ok a, m).

Definition bind {A B} (c : M A) (k : A -> M B) : M B :=
  fun m =>
    match c m with
    | (Ok a, m') => k a m'
    | (Raise e, m') => (Raise e, m')
    end.

Declare Scope script_scope.
Delimit Scope script_scope with script.
Notation "x <- c ;; k" := (bind c (fun x => k))
  (at level 61, c at next level, right associativity) : script_scope.
Notation "c ;; k" := (bind c (fun _ => k))
  (at level 61, right associativity) : script_scope.
Local Open Scope script_scope.

Definition raise {A} (e : exn) : M A := fun m => (Raise e, m).

(** The outcome of a library call. *)
Definition lift {A} (r : result A) : M A := fun m => (r, m).

(** [try: body  except Exception as e: handler(e)] *)
Definition try_except {A} (body : M A) (handler : exn -> M A) : M A :=
  fun m =>
    match body m with
    | (Ok a, m') => (Ok a, m')
    | (Raise e, m') =>
        if is_Exception e then handler e m' else (Raise e, m')
    end.

Definition emit (e : event) : M unit :=
  fun m => (Ok tt, {| session := session m; trace := trace m ++ [e] |}).

Definition get_session : M session_state := fun m => (Ok (session m), m).

Definition modify_session (f : session_state -> session_state) : M unit :=
  fun m => (Ok tt, {| session := f (session m); trace := trace m |}).

Definition when (b : bool) (c : M unit) : M unit :=
  if b then c else ret tt.

Definition st_error (body : str) : M unit := emit (StError body).
Definition st_warning (body : str) : M unit := emit (StWarning body).
Definition st_stop {A} : M A := raise StopException.
Definition st_rerun {A} : M A := raise RerunException.

Definition logging_info (line : str) : M unit := emit (Logged INFO line).
Definition logging_warning (line : str) : M unit := emit (Logged WARNING line).
Definition logging_error (line : str) : M unit := emit (Logged ERROR line).

(** Reading [st.session_state.messages] when the key is missing. *)
Definition AttributeError (key : string) : exn :=
  Exc "AttributeError" (py key).

(** [st.session_state.messages.append(entry)] *)
Definition messages_append (entry : ChatMessage) : M unit :=
  s <- get_session ;;
  match messages s with
  | Some ms => modify_session (set_messages (ms ++ [entry]))
  | None => raise (AttributeError "messages")
  end.

(** ** Audit logger *)

(** The decimal numeral an f-string writes for a length. *)
Definition format_int (n : nat) : str :=
  py (NilEmpty.string_of_uint (Nat.to_uint n)).

Definition log_query (query_length response_length : nat) (success : bool)
  : M unit :=
  let status := if success then py "SUCCESS" else py "FAILED" in
  logging_info (py "Query - Status: " ++ status
                ++ py ", Query Length: " ++ format_int query_length
                ++ py ", Response Length: " ++ format_int response_length).

(** ** Prompt builder and query dispatcher *)

(** The double quote and the line feed, for the literals below. *)
Definition dq : str := [34%N].
Definition nl : str := [10%N].

Definition SYSTEM_PROMPT : str :=
  py "You are "
  ++ dq ++ py "Hoos Who?"
  ++ dq ++ py " - a helpful assistant for UVA Darden MSBA students looking to connect with classmates based on career backgrounds.

You have access to a database of MSBA student profiles with their:
- Current company and role
- Past work experience
- Industries they've worked in
- Contact information
- Brief bios

When a user asks a question, search through the student data and provide helpful matches. Be friendly, concise, and always include:
1. Student name(s) that match their query
2. Why they're a good match
3. Their current role and company
4. Relevant past experience
5. How to contact them

If multiple students match, list the top 2-3 most relevant ones. Always maintain a friendly, collegial tone - these are classmates helping classmates!

Format your responses in a clear, scannable way. Use phrases like "
  ++ dq ++ py "Great question!"
  ++ dq ++ py " or "
  ++ dq ++ py "Here's who I'd recommend reaching out to:"
  ++ dq ++ py " to keep it conversational.".

(** The reply when the call fails. *)
Definition fallback_message : str :=
  py "I'm having trouble processing your request right now. Please try again in a moment. If this continues, please contact support.".

(** The f-string [user_prompt]. *)
Definition user_prompt (context user_question : str) : str :=
  py "Here's our current MSBA student database:" ++ nl ++ nl
  ++ context ++ nl ++ nl
  ++ py "User question: " ++ user_question ++ nl ++ nl
  ++ py "Please search through the students and provide helpful recommendations for who they should connect with based on their question.".

(** The request [query_claude] sends. *)
Definition build_request (context user_question : str) : Request :=
  {| model := py "claude-sonnet-4-20250514";
     max_tokens := 1000;
     system := SYSTEM_PROMPT;
     request_messages :=
       [ {| role := user; content := user_prompt context user_question |} ] |}.

(** [message.content[0].text] *)
Definition first_text (message : Message) : result str :=
  match message_content message with
  | [] => Raise (Exc "IndexError" (py "list index out of range"))
  | TextBlock text :: _ => Ok text
  | OtherBlock :: _ => Raise (AttributeError "text")
  end.

(** An optional string as the Python value it is. *)
Definition of_optional (o : option str) : pyval :=
  match o with
  | Some s => PyStr s
  | None => PyNone
  end.

Definition is_none {A} (o : option A) : bool :=
  match o with
  | Some _ => false
  | None => true
  end.

(** The widgets of one run: what the search box holds, whether the
    clear button or the button of the welcome dialog was pressed, and
    what [st.chat_input] returns. *)
Record Widgets : Type := {
  company_search : str;
  clear_chat_clicked : bool;
  got_it_clicked : bool;
  chat_input : option str
}.

Section Script.

Variable W : World.

Definition load_student_data : M DataFrame := lift (read_csv W).

Definition get_claude_client : M Anthropic :=
  let api_key := environ_api_key W in
  when (negb (truthy (of_optional api_key)))
    (st_error ([9888%N; 65039%N]
               ++ py " API key not configured. Please contact administrator.") ;;
     logging_error (py "API key missing - application cannot function") ;;
     st_stop) ;;
  ret {| client_api_key := match api_key with Some k => k | None => [] end |}.

(** [client.messages.create(...)]: the call leaves the process, then
    answers or raises. *)
Definition client_messages_create (client : Anthropic) (request : Request)
  : M Message :=
  emit (ApiCall client request) ;;
  lift (messages_create W client request).

Definition query_claude (user_question : str) (student_data : DataFrame)
  : M str :=
  client <- get_claude_client ;;
  context <- lift (json_dumps_records W student_data) ;;
  try_except
    (message <- client_messages_create client
                  (build_request context user_question) ;;
     response <- lift (first_text message) ;;
     log_query (len user_question) (len response) true ;;
     ret response)
    (fun e =>
       logging_error (py "API Error: " ++ str_of_exn e) ;;
       log_query (len user_question) 0 false ;;
       ret fallback_message).

(** [check_rate_limit()] inside a run. *)
Definition rate_limit_check : M bool :=
  fun m =>
    let (ok, s) := check_rate_limit (datetime_now W) (session m) in
    (Ok ok, {| session := s; trace := trace m |}).

(** The block under [if user_input:] at the end of the script. *)
Definition handle_user_input (user_input : option str) : M unit :=
  when (truthy (of_optional user_input))
    (let sanitized_input := sanitize_input (of_optional user_input) in
     when (negb (truthy (PyStr sanitized_input)) || (len sanitized_input <? 3))
       (st_error (py "Invalid input. Please enter a valid question (at least 3 characters).") ;;
        logging_warning
          (py "Invalid input rejected - length: "
           ++ format_int (len (match user_input with Some s => s | None => [] end))) ;;
        st_stop) ;;
     allowed <- rate_limit_check ;;
     when (negb allowed)
       (st_warning (py "You've reached the hourly query limit (20 queries/hour). Please try again later.") ;;
        logging_warning (py "Rate limit exceeded") ;;
        st_stop) ;;
     s <- get_session ;;
     when (negb (is_none (shown_welcome s)))
       (modify_session (set_shown_welcome true)) ;;
     messages_append {| role := user; content := sanitized_input |} ;;
     df <- load_student_data ;;
     response <- query_claude sanitized_input df ;;
     messages_append {| role := assistant; content := response |} ;;
     st_rerun).

(** The welcome dialog: what it draws is left out, its button is not. *)
Definition show_career_services_modal (w : Widgets) : M unit :=
  when (got_it_clicked w)
    (modify_session (set_shown_welcome true) ;;
     st_rerun).

(** The script from top to bottom, as Streamlit runs it after every
    interaction.  Drawing (styles, sidebar, transcript, cards, footer)
    leaves no mark on the session or the trace and is left out. *)
Definition script (w : Widgets) : M unit :=
  s <- get_session ;;
  when (is_none (messages s)) (modify_session (set_messages [])) ;;
  _ <- load_student_data ;;
  when (clear_chat_clicked w)
    (modify_session (set_messages []) ;;
     st_rerun) ;;
  s <- get_session ;;
  when (is_none (shown_welcome s)) (modify_session (set_shown_welcome false)) ;;
  s <- get_session ;;
  when (negb (match shown_welcome s with Some b => b | None => false end))
    (show_career_services_modal w) ;;
  handle_user_input (chat_input w) ;;
  _ <- load_student_data ;;
  ret tt.

End Script.

(** How Streamlit's runner sees the end of a run. *)
Inductive outcome : Type :=
| Completed
| Stopped
| Rerun
| Crashed (e : exn).

Definition outcome_of (r : result unit) : outcome :=
  match r with
  | Ok _ => Completed
  | Raise StopException => Stopped
  | Raise RerunException => Rerun
  | Raise e => Crashed e
  end.

(** One run of the script on a session, with an empty trace to start. *)
Definition run_script (W : World) (w : Widgets) (s : session_state)
  : outcome * machine :=
  let (r, m) := script W w {| session := s; trace := [] |} in
  (outcome_of r, m).

(** The calls to the hosted model among the events of a run. *)
Definition api_calls (t : list event) : list Request :=
  flat_map (fun e => match e with ApiCall _ r => [r] | _ => [] end) t.

(** A run of attempts at the given clock readings, one after another. *)
Definition attempts (ts : list datetime) (s : session_state) : session_state :=
  fold_left (fun s t => snd (check_rate_limit t s)) ts s.

(** ** A concrete world

    [json.dumps(records, indent=2)] on a frame whose cells are all text,
    with the escapes of [ensure_ascii], a small directory and a model
    that always answers; the examples below run on them. *)

Definition hex_digit (n : N) : char :=
  if (n <? 10)%N then (48 + n)%N else (87 + n)%N.

(** [\\uXXXX] *)
Definition u_escape (n : N) : str :=
  [92%N; 117%N;
   hex_digit ((n / 4096) mod 16); hex_digit ((n / 256) mod 16);
   hex_digit ((n / 16) mod 16); hex_digit (n mod 16)].

Definition json_escape_char (c : char) : str :=
  if (c =? 34)%N then [92%N; 34%N]
  else if (c =? 92)%N then [92%N; 92%N]
  else if (c =? 8)%N then [92%N; 98%N]
  else if (c =? 12)%N then [92%N; 102%N]
  else if (c =? 10)%N then [92%N; 110%N]
  else if (c =? 13)%N then [92%N; 114%N]
  else if (c =? 9)%N then [92%N; 116%N]
  else if (32 <=? c)%N && (c <=? 126)%N then [c]
  else if (c <? 65536)%N then u_escape c
  else
    let n := (c - 65536)%N in
    u_escape (N.lor 55296 (N.land (N.shiftr n 10) 1023))
    ++ u_escape (N.lor 56320 (N.land n 1023)).

Definition json_string (s : str) : str :=
  dq ++ flat_map json_escape_char s ++ dq.

(** [sep.join(parts)] *)
Fixpoint join (sep : str) (parts : list str) : str :=
  match parts with
  | [] => []
  | [x] => x
  | x :: rest => x ++ sep ++ join sep rest
  end.

Definition json_record (r : StudentRecord) : str :=
  let field (key : str) (value : str) :=
    py "    " ++ json_string key ++ py ": " ++ json_string value in
  py "{" ++ nl
  ++ join (py "," ++ nl)
       [ field (py "name") (name r);
         field (py "current_company") (current_company r);
         field (py "current_role") (current_role r);
         field (py "past_companies") (past_companies r);
         field (py "industries") (industries r);
         field (py "contact") (contact r) ]
  ++ nl ++ py "  }".

Definition json_dumps_indent2 (df : DataFrame) : str :=
  match df with
  | [] => py "[]"
  | _ :: _ =>
      py "[" ++ nl
      ++ join (py "," ++ nl) (map (fun r => py "  " ++ json_record r) df)
      ++ nl ++ py "]"
  end.

Definition sample_data : DataFrame :=
  [ {| name := py "Ada Park";
       current_company := py "ICF";
       current_role := py "Data Analyst";
       past_companies := py "Deloitte";
       industries := py "Consulting, Government";
       contact := py "ada@example.edu" |};
    {| name := py "Ben Ruiz";
       current_company := py "Capital One";
       current_role := py "Product Manager";
       past_companies := py "Visa";
       industries := py "Finance";
       contact := py "ben@example.edu" |} ].

Definition sample_reply : str := py "Great question! Ada Park works at ICF.".

(** A world with the credential set, in which the model answers. *)
Definition sample_world (now : datetime) : World :=
  {| environ_api_key := Some (py "sk-test");
     datetime_now := now;
     read_csv := Ok sample_data;
     json_dumps_records := fun df => Ok (json_dumps_indent2 df);
     messages_create := fun _ _ =>
       Ok {| message_content := [TextBlock sample_reply] |} |}.

(** The same world with the model out of reach. *)
Definition failing_world (now : datetime) : World :=
  {| environ_api_key := Some (py "sk-test");
     datetime_now := now;
     read_csv := Ok sample_data;
     json_dumps_records := fun df => Ok (json_dumps_indent2 df);
     messages_create := fun _ _ =>
       Raise (Exc "APIConnectionError" (py "Connection error.")) |}.

(** The same world without the credential. *)
Definition keyless_world (now : datetime) : World :=
  {| environ_api_key := None;
     datetime_now := now;
     read_csv := Ok sample_data;
     json_dumps_records := fun df => Ok (json_dumps_indent2 df);
     messages_create := fun _ _ =>
       Ok {| message_content := [TextBlock sample_reply] |} |}.

(** A run in which nothing but the chat box was used. *)
Definition chat_submit (text : str) : Widgets :=
  {| company_search := [];
     clear_chat_clicked := false;
     got_it_clicked := false;
     chat_input := Some text |}.

(** A run in which nothing was used: the page is loaded or redrawn. *)
Definition page_load : Widgets :=
  {| company_search := [];
     clear_chat_clicked := false;
     got_it_clicked := false;
     chat_input := None |}.


(** A session that has asked once a minute for twenty minutes. *)
Definition minute : timedelta := 60000000%Z.

Definition minute_marks : list datetime :=
  map (fun k => (Z.of_nat k * minute)%Z) (seq 0 20).

Definition busy_session : session_state := attempts minute_marks new_session.

(** ** Vocabulary for the statements *)

(** Appending events to the trace of a machine. *)
Definition logged (m : machine) (es : list event) : machine :=
  {| session := session m; trace := trace m ++ es |}.

(** The events of a missing credential. *)
Definition api_key_missing_events : list event :=
  [ StError ([9888%N; 65039%N]
             ++ py " API key not configured. Please contact administrator.");
    Logged ERROR (py "API key missing - application cannot function") ].

(** The line [log_query] writes. *)
Definition query_log_line (query_length response_length : nat) (success : bool)
  : event :=
  Logged INFO
    (py "Query - Status: " ++ (if success then py "SUCCESS" else py "FAILED")
     ++ py ", Query Length: " ++ format_int query_length
     ++ py ", Response Length: " ++ format_int response_length).

(** The events of a failed call, after the call itself. *)
Definition failure_events (user_question : str) (e : exn) : list event :=
  [ Logged ERROR (py "API Error: " ++ str_of_exn e);
    query_log_line (len user_question) 0 false ].

(** What the part of [query_claude] under [try] comes to, given the
    outcome of the call and of reading its first text. *)
Definition reply_of (W : World) (client : Anthropic) (request : Request)
  : result str :=
  match messages_create W client request with
  | Ok message => first_text message
  | Raise e => Raise e
  end.

(** A world in which the records do not serialize. *)
Definition unserializable_world (now : datetime) : World :=
  {| environ_api_key := Some (py "sk-test");
     datetime_now := now;
     read_csv := Ok sample_data;
     json_dumps_records := fun _ =>
       Raise (Exc "TypeError" (py "Object of type int64 is not JSON serializable"));
     messages_create := fun _ _ =>
       Ok {| message_content := [TextBlock sample_reply] |} |}.

Arguments sample_world now%_Z.
Arguments failing_world now%_Z.
Arguments keyless_world now%_Z.
Arguments unserializable_world now%_Z.

(** A machine at the start of a run. *)
Definition start (s : session_state) : machine :=
  {| session := s; trace := [] |}.

(** The events of an input that is too short, and of a full window. *)
Definition invalid_input_events (raw_length : nat) : list event :=
  [ StError (py "Invalid input. Please enter a valid question (at least 3 characters).");
    Logged WARNING (py "Invalid input rejected - length: " ++ format_int raw_length) ].

Definition rate_limit_events : list event :=
  [ StWarning (py "You've reached the hourly query limit (20 queries/hour). Please try again later.");
    Logged WARNING (py "Rate limit exceeded") ].

(** The session once the handler has let a question through: the
    welcome flag, if there is one, is set. *)
Definition mark_welcome (s : session_state) : session_state :=
  if is_none (shown_welcome s) then s else set_shown_welcome true s.

(** The transcript of a session. *)
Definition transcript (s : session_state) : list ChatMessage :=
  match messages s with
  | Some ms => ms
  | None => []
  end.

(** A session as the top of the script leaves it on the first run. *)
Definition opened_session : session_state :=
  {| messages := Some []; query_times := None; shown_welcome := Some false |}.

(** The session as the top of the script hands it to the handler: the
    transcript and the welcome flag exist. *)
Definition init_session (s : session_state) : session_state :=
  {| messages := Some (transcript s);
     query_times := query_times s;
     shown_welcome :=
       Some (match shown_welcome s with Some b => b | None => false end) |}.

(** A text in which no pattern of the denylist occurs in any of the
    three casings the loop looks for. *)
Definition clean (s : str) : bool :=
  forallb
    (fun pattern =>
       negb (contains pattern s)
       && negb (contains (lower pattern) s)
       && negb (contains (upper pattern) s))
    dangerous_patterns.

(** [a] is [b] with some of its characters left out. *)
Inductive subsequence : str -> str -> Prop :=
| subsequence_nil : subsequence [] []
| subsequence_skip c a b : subsequence a b -> subsequence a (c :: b)
| subsequence_keep c a b : subsequence a b -> subsequence (c :: a) (c :: b).

(** The clock readings of the attempts of a run of attempts that were
    accepted. *)
Fixpoint accepted_times (ts : list datetime) (s : session_state)
  : list datetime :=
  match ts with
  | [] => []
  | t :: rest =>
      (if fst (check_rate_limit t s) then [t] else [])
      ++ accepted_times rest (snd (check_rate_limit t s))
  end.

(** The lines of the audit log among the events of a run. *)
Definition log_lines (t : list event) : list (log_level * str) :=
  flat_map (fun e => match e with Logged l line => [(l, line)] | _ => [] end) t.

(** What of a reply the audit log can show: the length of the text, or
    the exception. *)
Definition reply_shape (r : result str) : result nat :=
  match r with
  | Ok text => Ok (len text)
  | Raise e => Raise e
  end.

(** The same question one character apart, for the examples. *)
Definition other_world (now : datetime) : World :=
  {| environ_api_key := Some (py "sk-other");
     datetime_now := now;
     read_csv := Ok [];
     json_dumps_records := fun df => Ok (json_dumps_indent2 df);
     messages_create := fun _ _ =>
       Ok {| message_content :=
               [TextBlock (py "Great question! Ben Ruiz works at IBM."); OtherBlock] |} |}.

Arguments other_world now%_Z.

(** A session over several runs: Streamlit runs the script once for each
    interaction, each time in the world of that moment and on the
    session the run before left.  The result is the last session and
    the clock readings of the runs that called the model, one for each
    call. *)
Fixpoint play (runs : list (World * Widgets)) (s : session_state)
  : session_state * list datetime :=
  match runs with
  | [] => (s, [])
  | (W, w) :: rest =>
      let R := run_script W w s in
      let later := play rest (session (snd R)) in
      (fst later,
       map (fun _ => datetime_now W) (api_calls (trace (snd R)))
       ++ snd later)
  end.

(** A world in which [student_data.csv] is not there. *)
Definition missing_csv_world (now : datetime) : World :=
  {| environ_api_key := Some (py "sk-test");
     datetime_now := now;
     read_csv :=
       Raise (Exc "FileNotFoundError"
                (py "[Errno 2] No such file or directory: 'student_data.csv'"));
     json_dumps_records := fun df => Ok (json_dumps_indent2 df);
     messages_create := fun _ _ =>
       Ok {| message_content := [TextBlock sample_reply] |} |}.

Arguments missing_csv_world now%_Z.

(** ** Company directory

    The expander of the sidebar: the companies of the directory, each
    once, in the order of [sorted], narrowed by the search box, each
    with the number of its students. *)

(** [a <= b] on strings: by code points, a prefix first. *)
Fixpoint str_leb (a b : str) : bool :=
  match a, b with
  | [], _ => true
  | _ :: _, [] => false
  | x :: a', y :: b' => (x <? y)%N || ((x =? y)%N && str_leb a' b')
  end.

(** [Series.unique()]: the values in the order in which they first
    appear. *)
Fixpoint unique (values : list str) : list str :=
  match values with
  | [] => []
  | x :: rest => x :: filter (fun y => negb (str_eqb y x)) (unique rest)
  end.

Fixpoint insert_sorted (x : str) (l : list str) : list str :=
  match l with
  | [] => [x]
  | y :: l' => if str_leb x y then x :: l else y :: insert_sorted x l'
  end.

(** [sorted(values)] *)
Fixpoint sorted (values : list str) : list str :=
  match values with
  | [] => []
  | x :: rest => insert_sorted x (sorted rest)
  end.

Definition all_companies (df : DataFrame) : list str :=
  sorted (unique (map current_company df)).

(** [len(df[df['current_company'] == company])] *)
Definition company_count (df : DataFrame) (company : str) : nat :=
  List.length (filter (fun r => str_eqb (current_company r) company) df).

Section Directory.

(** [str.lower()] on any text; the directory applies it to what the user
    types and to the names of the companies. *)
Variable str_lower : str -> str.

Definition filtered_companies (df : DataFrame) (search_term : str) : list str :=
  if truthy (PyStr search_term)
  then filter (fun c => contains (str_lower search_term) (str_lower c))
         (all_companies df)
  else all_companies df.

(** The line of one company. *)
Definition company_line (df : DataFrame) (company : str) : str :=
  let count := company_count df company in
  if count =? 1
  then [8226%N] ++ py " " ++ company
  else [8226%N] ++ py " **" ++ company ++ py "** (" ++ format_int count
       ++ py " students)".

(** What the expander writes under the rule that follows the search box,
    one string for each [st.markdown]. *)
Definition company_listing (df : DataFrame) (search_term : str) : list str :=
  match filtered_companies df search_term with
  | [] => [py "*No companies found matching your search*"]
  | company :: rest => map (company_line df) (company :: rest)
  end.

End Directory.

(** A decimal digit. *)
Definition is_digit (c : char) : Prop := (48 <= c <= 57)%N.

(** * Properties *)

(** ** Strings *)

Lemma startswith_app (p s : str) : startswith p (p ++ s) = true.
Proof.
  induction p as [|a p IH]; simpl; [reflexivity|].
  now rewrite N.eqb_refl, IH.
Qed.

Lemma startswith_length (p s : str) :
  startswith p s = true -> List.length p <= List.length s.
Proof.
  revert s; induction p as [|a p IH]; intros [|b s]; simpl; try lia; try discriminate.
  intros H; apply andb_true_iff in H as [_ H]. apply IH in H. lia.
Qed.

(** After a match the scan goes on behind it. *)
Lemma replace_scan_skip (old new : str) (k : nat) (s : str) :
  replace_scan old new k s = replace_scan old new 0 (skipn k s).
Proof.
  revert k; induction s as [|c s IH]; intros [|k]; try reflexivity.
  simpl replace_scan at 1. rewrite IH. reflexivity.
Qed.

(** The equations of [replace] on a non-empty [old]: at a match the
    replacement is written and the match jumped over, elsewhere a
    character is copied. *)
Lemma replace_cons (old new : str) (c : char) (s : str) :
  old <> [] ->
  replace old new (c :: s) =
  if startswith old (c :: s)
  then new ++ replace old new (skipn (List.length old) (c :: s))
  else c :: replace old new s.
Proof.
  destruct old as [|a old]; [congruence|intros _].
  unfold replace. cbn [replace_scan].
  destruct (startswith (a :: old) (c :: s)); [|reflexivity].
  rewrite replace_scan_skip. cbn [List.length skipn].
  now rewrite Nat.sub_succ, Nat.sub_0_r.
Qed.

Lemma replace_nil (old new : str) : old <> [] -> replace old new [] = [].
Proof. destruct old; [congruence|reflexivity]. Qed.

(** Removing never makes a string longer. *)
Lemma replace_scan_remove_length (old : str) (k : nat) (s : str) :
  List.length (replace_scan old [] k s) <= List.length s.
Proof.
  revert k; induction s as [|c s IH]; intros k; simpl; [lia|].
  destruct k as [|k].
  - destruct (startswith old (c :: s)); simpl.
    + specialize (IH (List.length old - 1)). lia.
    + specialize (IH 0). lia.
  - specialize (IH k). lia.
Qed.

Lemma slice_to_length (n : nat) (s : str) : len (slice_to n s) <= n.
Proof. unfold len, slice_to. rewrite length_firstn. lia. Qed.

(** ** Sanitizer *)

(** C8.  Whatever the sanitizer is given, a string or any other value,
    its output has at most 500 characters, and an input that is not a
    string or is empty (falsy) gives the empty string. *)
Theorem sanitize_input_capped (user_input : pyval) :
  len (sanitize_input user_input) <= 500 /\
  (isinstance_str user_input = false \/ truthy user_input = false ->
   sanitize_input user_input = []).
Proof.
  split.
  - unfold sanitize_input.
    destruct (negb (truthy user_input) || negb (isinstance_str user_input));
      [apply Nat.le_0_l|].
    destruct user_input; try apply Nat.le_0_l. apply slice_to_length.
  - intros [H|H]; unfold sanitize_input; rewrite H; cbn [negb orb];
      [now rewrite orb_true_r | reflexivity].
Qed.

Lemma sanitize_input_capped_witness :
  len (sanitize_input (PyInt 7)) <= 500 /\
  sanitize_input (PyInt 7) = [] /\
  sanitize_input (PyStr []) = [].
Proof.
  split; [apply (sanitize_input_capped (PyInt 7))|].
  split.
  - apply (sanitize_input_capped (PyInt 7)). left. reflexivity.
  - apply (sanitize_input_capped (PyStr [])). right. reflexivity.
Defined.

(** On a string the sanitizer is the loop followed by the cut. *)
Lemma sanitize_input_str (s : str) :
  sanitize_input (PyStr s) =
  slice_to 500 (fold_left strip_pattern dangerous_patterns s).
Proof. destruct s; reflexivity. Qed.

(** C1.  The sanitizer removes each denylisted pattern as it is written
    in the list, in lower case and in upper case, and no other casing:
    on the input [<Script>alert(1)</Script>], which contains the
    denylisted [<script>] in mixed case, the output still contains it. *)
Theorem sanitize_input_keeps_mixed_case :
  let raw := py "<Script>alert(1)</Script>" in
  let found := py "<Script>" in
  In (py "<script>") dangerous_patterns /\
  lower found = lower (py "<script>") /\
  contains found raw = true /\
  sanitize_input (PyStr raw) = raw /\
  contains found (sanitize_input (PyStr raw)) = true.
Proof.
  cbv zeta. split; [left; reflexivity|].
  repeat split; vm_compute; reflexivity.
Qed.

(** Each removal is a single scan, so that a pattern can be put together
    again from the text around a match, in the listed casing too. *)
Example sanitize_input_reassembles_nested :
  sanitize_input (PyStr (py "<scr<scr<script>ipt>ipt>")) = py "<script>".
Proof. vm_compute. reflexivity. Qed.

Example sanitize_input_reassembles_across :
  sanitize_input (PyStr (py "<scrieval(pt>")) = py "<script>".
Proof. vm_compute. reflexivity. Qed.

(** What the loop does remove: the three casings of a pattern, met on
    their own. *)
Example sanitize_input_three_casings :
  sanitize_input (PyStr (py "a<script>b<SCRIPT>c drop tableDROP TABLE d"))
  = py "abc  d".
Proof. vm_compute. reflexivity. Qed.

(** Where [old] does not occur, [replace] changes nothing. *)
Lemma replace_absent (old new s : str) :
  old <> [] -> contains old s = false -> replace old new s = s.
Proof.
  intros Hne. induction s as [|c s IH]; intros Habs.
  - now apply replace_nil.
  - rewrite replace_cons by exact Hne.
    cbn [contains] in Habs. apply orb_false_iff in Habs as [Hhere Hlater].
    rewrite Hhere. f_equal. now apply IH.
Qed.

Lemma lower_nonempty (p : str) : p <> [] -> lower p <> [].
Proof. destruct p; [congruence|discriminate]. Qed.

Lemma upper_nonempty (p : str) : p <> [] -> upper p <> [].
Proof. destruct p; [congruence|discriminate]. Qed.

Lemma dangerous_patterns_nonempty :
  Forall (fun pattern => pattern <> []) dangerous_patterns.
Proof. repeat constructor; discriminate. Qed.

(** The loop leaves a clean text alone. *)
Lemma strip_patterns_clean (patterns : list str) (s : str) :
  Forall (fun pattern => pattern <> []) patterns ->
  forallb
    (fun pattern =>
       negb (contains pattern s)
       && negb (contains (lower pattern) s)
       && negb (contains (upper pattern) s))
    patterns = true ->
  fold_left strip_pattern patterns s = s.
Proof.
  induction 1 as [|p patterns Hp _ IH]; [reflexivity|].
  cbn [forallb fold_left]. intros H.
  apply andb_true_iff in H as [H Hrest].
  apply andb_true_iff in H as [H Hup]. apply andb_true_iff in H as [Hp0 Hlow].
  apply negb_true_iff in Hp0, Hlow, Hup.
  assert (Hstep : strip_pattern s p = s).
  { unfold strip_pattern.
    rewrite (replace_absent p [] s Hp Hp0).
    rewrite (replace_absent (lower p) [] s (lower_nonempty p Hp) Hlow).
    apply (replace_absent (upper p) [] s (upper_nonempty p Hp) Hup). }
  rewrite Hstep. now apply IH.
Qed.

(** A clean question of at most 500 characters reaches the model as it
    was typed. *)
Lemma sanitize_input_clean (s : str) :
  clean s = true -> len s <= 500 -> sanitize_input (PyStr s) = s.
Proof.
  intros Hclean Hlen. rewrite sanitize_input_str.
  rewrite (strip_patterns_clean dangerous_patterns s
             dangerous_patterns_nonempty Hclean).
  apply firstn_all2. exact Hlen.
Qed.

Example who_works_at_ICF_is_clean : clean (py "Who works at ICF?") = true.
Proof. vm_compute. reflexivity. Qed.

(** ** Rate limiter *)

Lemma prune_In (now t : datetime) (times : list datetime) :
  In t (prune now times) <-> In t times /\ (now - t < one_hour)%Z.
Proof.
  unfold prune. rewrite filter_In. now rewrite Z.ltb_lt.
Qed.

Lemma prune_fresh (now : datetime) (times : list datetime) :
  Forall (fun t => (now - t < one_hour)%Z) (prune now times).
Proof. apply Forall_forall. intros t H. now apply prune_In in H. Qed.

Lemma prune_length (now : datetime) (times : list datetime) :
  List.length (prune now times) <= List.length times.
Proof. apply filter_length_le. Qed.

(** Nothing is pruned from a window that is fresh all through. *)
Lemma prune_all_fresh (now : datetime) (times : list datetime) :
  Forall (fun t => (now - t < one_hour)%Z) times -> prune now times = times.
Proof.
  induction 1 as [|t times Ht _ IH]; [reflexivity|].
  unfold prune in *. simpl. apply Z.ltb_lt in Ht. now rewrite Ht, IH.
Qed.

(** A pruning that keeps the length keeps the list. *)
Lemma prune_same_length (now : datetime) (times : list datetime) :
  List.length (prune now times) = List.length times -> prune now times = times.
Proof.
  induction times as [|t times IH]; [reflexivity|].
  pose proof (prune_length now times) as Hle.
  unfold prune in *. cbn [filter].
  destruct (now - t <? one_hour)%Z; cbn [List.length]; intros H.
  - f_equal. apply IH. lia.
  - lia.
Qed.

Lemma set_query_times_window (s : session_state) :
  query_times s = Some (window s) -> set_query_times (window s) s = s.
Proof. destruct s as [m q w]; unfold window; simpl. now intros ->. Qed.

(** [check_rate_limit], case by case on the pruned window. *)
Lemma check_rate_limit_eq (now : datetime) (s : session_state) :
  check_rate_limit now s =
  let kept := prune now (window s) in
  if 20 <=? List.length kept
  then (false, set_query_times kept s)
  else (true, set_query_times (kept ++ [now]) s).
Proof.
  unfold check_rate_limit, window.
  destruct s as [m [times|] w]; simpl; reflexivity.
Qed.

Lemma window_set_query_times (v : list datetime) (s : session_state) :
  window (set_query_times v s) = v.
Proof. reflexivity. Qed.

(** The window of a session the limiter can meet never holds more than
    20 timestamps. *)
Lemma limiter_reachable_bound (s : session_state) :
  limiter_reachable s -> List.length (window s) <= 20.
Proof.
  induction 1 as [s H|s t _ IH|s m w _ IH].
  - unfold window. rewrite H. simpl. lia.
  - rewrite check_rate_limit_eq. cbv zeta.
    pose proof (prune_length t (window s)) as Hp.
    destruct (Nat.leb_spec 20 (List.length (prune t (window s)))) as [Hc|Hc];
      simpl snd; rewrite window_set_query_times.
    + lia.
    + rewrite length_app. simpl. lia.
  - exact IH.
Qed.

Lemma attempts_reachable (ts : list datetime) (s : session_state) :
  limiter_reachable s -> limiter_reachable (attempts ts s).
Proof.
  revert s; induction ts as [|t ts IH]; intros s H; simpl; [exact H|].
  apply IH. now apply reach_check.
Qed.

(** Up to twenty attempts in a new session, all within one hour of one
    another, are accepted one and all: the window is the list of their
    times. *)
Lemma attempts_fill_window (ts : list datetime) (s : session_state) :
  query_times s = None ->
  List.length ts <= 20 ->
  (forall u t, In u ts -> In t ts -> (t - u < one_hour)%Z) ->
  window (attempts ts s) = ts.
Proof.
  intros Hnew. induction ts as [|t ts IH] using rev_ind; intros Hlen Hnear.
  - unfold attempts, window. simpl. now rewrite Hnew.
  - unfold attempts in *. rewrite fold_left_app. cbn [fold_left].
    rewrite length_app in Hlen. simpl in Hlen.
    rewrite check_rate_limit_eq. cbv zeta. rewrite IH.
    + rewrite prune_all_fresh.
      * destruct (Nat.leb_spec 20 (List.length ts)); [lia|reflexivity].
      * apply Forall_forall. intros u Hu.
        apply Hnear; apply in_or_app; [left; exact Hu | right; left; reflexivity].
    + lia.
    + intros u v Hu Hv. apply Hnear; apply in_or_app; now left.
Qed.

(** C9.  After every call of [check_rate_limit], accepting or rejecting,
    the timestamp list of the session exists, every timestamp in it is
    less than one hour old (and not in the future, if none was before
    the call), and there are at most 20 of them. *)
Theorem check_rate_limit_invariant (now : datetime) (s : session_state) :
  limiter_reachable s ->
  let s' := snd (check_rate_limit now s) in
  query_times s' = Some (window s') /\
  Forall (fun t => (now - t < one_hour)%Z) (window s') /\
  (Forall (fun t => (t <= now)%Z) (window s) ->
   Forall (fun t => (now - one_hour < t <= now)%Z) (window s')) /\
  List.length (window s') <= 20.
Proof.
  intros Hreach. cbv zeta.
  pose proof (limiter_reachable_bound _ (reach_check s now Hreach)) as Hlen.
  split; [|split; [|split; [|exact Hlen]]].
  - rewrite check_rate_limit_eq. cbv zeta.
    destruct (20 <=? List.length (prune now (window s))); reflexivity.
  - rewrite check_rate_limit_eq. cbv zeta.
    destruct (20 <=? List.length (prune now (window s)));
      simpl snd; rewrite window_set_query_times.
    + apply prune_fresh.
    + apply Forall_app. split; [apply prune_fresh|].
      constructor; [|constructor]. unfold one_hour. lia.
  - intros Hpast.
    assert (Hkept : Forall (fun t => (now - one_hour < t <= now)%Z)
                      (prune now (window s))).
    { apply Forall_forall. intros t Ht. apply prune_In in Ht as [Hin Hage].
      rewrite Forall_forall in Hpast. specialize (Hpast t Hin). lia. }
    rewrite check_rate_limit_eq. cbv zeta.
    destruct (20 <=? List.length (prune now (window s)));
      simpl snd; rewrite window_set_query_times.
    + exact Hkept.
    + apply Forall_app. split; [exact Hkept|].
      constructor; [|constructor]. unfold one_hour. lia.
Qed.

(** C5.  On every attempt the entries that are one hour old or older are
    pruned first; the attempt is accepted exactly when fewer than 20
    entries remain, and then the new timestamp is recorded behind them;
    when it is rejected the session is left as it was. *)
Theorem check_rate_limit_prune_then_decide (now : datetime) (s : session_state) :
  limiter_reachable s ->
  let kept := prune now (window s) in
  (forall t, In t kept <-> In t (window s) /\ (now - t < one_hour)%Z) /\
  fst (check_rate_limit now s) = (List.length kept <? 20) /\
  (fst (check_rate_limit now s) = true ->
   snd (check_rate_limit now s) = set_query_times (kept ++ [now]) s) /\
  (fst (check_rate_limit now s) = false ->
   snd (check_rate_limit now s) = s).
Proof.
  intros Hreach kept. subst kept.
  pose proof (limiter_reachable_bound s Hreach) as Hbound.
  pose proof (prune_length now (window s)) as Hp.
  rewrite check_rate_limit_eq. cbv zeta.
  split; [intros t; apply prune_In|].
  destruct (Nat.leb_spec 20 (List.length (prune now (window s)))) as [Hc|Hc];
    simpl fst; simpl snd.
  - split; [symmetry; apply Nat.ltb_ge; exact Hc|].
    split; [discriminate|]. intros _.
    assert (Hsame : prune now (window s) = window s)
      by (apply prune_same_length; lia).
    rewrite Hsame. apply set_query_times_window.
    unfold window in *. destruct (query_times s) as [times|]; [reflexivity|].
    simpl in Hc. lia.
  - split; [symmetry; apply Nat.ltb_lt; exact Hc|].
    split; [reflexivity|discriminate].
Qed.

(** C4.  In a session whose window holds 20 timestamps, all less than
    one hour old, the next attempt is rejected.  Once one of them, the
    oldest, is one hour old while the others are not, the next attempt
    is accepted and takes its place, and the attempt after that is
    rejected again as long as those 20 are less than one hour old:
    capacity has grown by one and no more. *)
Theorem check_rate_limit_twenty_per_hour
    (s : session_state) (before after : list datetime) (oldest : datetime) :
  query_times s = Some (before ++ oldest :: after) ->
  List.length (before ++ oldest :: after) = 20 ->
  (forall now,
      Forall (fun t => (now - t < one_hour)%Z) (before ++ oldest :: after) ->
      fst (check_rate_limit now s) = false) /\
  (forall later,
      (one_hour <= later - oldest)%Z ->
      Forall (fun t => (later - t < one_hour)%Z) (before ++ after) ->
      let s' := set_query_times (before ++ after ++ [later]) s in
      check_rate_limit later s = (true, s') /\
      forall next,
        Forall (fun t => (next - t < one_hour)%Z) (before ++ after ++ [later]) ->
        check_rate_limit next s' = (false, s')).
Proof.
  intros Hq Hlen.
  assert (Hw : window s = before ++ oldest :: after)
    by (unfold window; now rewrite Hq).
  split.
  - intros now Hfresh. rewrite check_rate_limit_eq, Hw. cbv zeta.
    rewrite (prune_all_fresh now _ Hfresh), Hlen. reflexivity.
  - intros later Hold Hfresh s'.
    assert (Hkept : prune later (before ++ oldest :: after) = before ++ after).
    { apply Forall_app in Hfresh as [Hb Ha].
      unfold prune in *. rewrite filter_app. simpl.
      replace (later - oldest <? one_hour)%Z with false
        by (symmetry; apply Z.ltb_ge; exact Hold).
      rewrite <- filter_app. apply (prune_all_fresh later).
      apply Forall_app. now split. }
    assert (Hlen' : List.length (before ++ after) = 19)
      by (rewrite length_app in *; simpl in Hlen; lia).
    split.
    + rewrite check_rate_limit_eq, Hw. cbv zeta. rewrite Hkept, Hlen'.
      simpl. subst s'. now rewrite <- app_assoc.
    + intros next Hnext. rewrite check_rate_limit_eq. cbv zeta.
      subst s'. rewrite window_set_query_times, (prune_all_fresh next _ Hnext).
      replace (List.length (before ++ after ++ [later])) with 20
        by (rewrite app_assoc, length_app, Hlen'; reflexivity).
      simpl. destruct s; reflexivity.
Qed.

Lemma busy_session_reachable : limiter_reachable busy_session.
Proof. apply attempts_reachable, reach_new. reflexivity. Qed.

Lemma busy_session_window : query_times busy_session = Some minute_marks.
Proof. vm_compute. reflexivity. Qed.

(** Freshness of a given window at a given time, by computation. *)
Lemma fresh_by_computation (now : datetime) (times : list datetime) :
  forallb (fun t => (now - t <? one_hour)%Z) times = true ->
  Forall (fun t => (now - t < one_hour)%Z) times.
Proof.
  intros H. apply Forall_forall. intros t Hin.
  rewrite forallb_forall in H. apply Z.ltb_lt. now apply H.
Qed.

Lemma check_rate_limit_invariant_witness :
  let s' := snd (check_rate_limit (20 * minute)%Z busy_session) in
  query_times s' = Some (window s') /\
  Forall (fun t => (20 * minute - t < one_hour)%Z) (window s') /\
  (Forall (fun t => (t <= 20 * minute)%Z) (window busy_session) ->
   Forall (fun t => (20 * minute - one_hour < t <= 20 * minute)%Z) (window s')) /\
  List.length (window s') <= 20.
Proof.
  apply (check_rate_limit_invariant (20 * minute)%Z busy_session).
  apply attempts_reachable, reach_new. reflexivity.
Defined.

Lemma check_rate_limit_prune_then_decide_witness :
  fst (check_rate_limit (20 * minute)%Z busy_session) = false /\
  snd (check_rate_limit (20 * minute)%Z busy_session) = busy_session.
Proof.
  assert (R : limiter_reachable busy_session)
    by (apply attempts_reachable, reach_new; reflexivity).
  destruct (check_rate_limit_prune_then_decide (20 * minute)%Z busy_session R)
    as (_ & Hdecide & _ & Hreject).
  assert (Hfalse : fst (check_rate_limit (20 * minute)%Z busy_session) = false)
    by (rewrite Hdecide; vm_compute; reflexivity).
  split; [exact Hfalse | exact (Hreject Hfalse)].
Defined.

Lemma check_rate_limit_twenty_per_hour_witness :
  fst (check_rate_limit (20 * minute)%Z busy_session) = false /\
  fst (check_rate_limit (60 * minute)%Z busy_session) = true /\
  fst (check_rate_limit (60 * minute)%Z
         (snd (check_rate_limit (60 * minute)%Z busy_session))) = false.
Proof.
  destruct (check_rate_limit_twenty_per_hour busy_session [] (tl minute_marks) 0%Z)
    as [Hfull Hfreed]; [vm_compute; reflexivity | reflexivity |].
  split.
  - apply Hfull. apply fresh_by_computation. vm_compute. reflexivity.
  - destruct (Hfreed (60 * minute)%Z) as [Haccept Hnext].
    + vm_compute. discriminate.
    + apply fresh_by_computation. vm_compute. reflexivity.
    + rewrite Haccept. split; [reflexivity|]. simpl snd.
      rewrite Hnext; [reflexivity|].
      apply fresh_by_computation. vm_compute. reflexivity.
Defined.

(** ** Dispatcher *)

Arguments py : simpl never.
Arguments format_int : simpl never.
Arguments sanitize_input : simpl never.
Arguments check_rate_limit : simpl never.
Arguments build_request : simpl never.
Arguments user_prompt : simpl never.
Arguments first_text : simpl never.

Lemma emit_eq (e : event) (m : machine) : emit e m = (Ok tt, logged m [e]).
Proof. reflexivity. Qed.

Lemma logged_logged (m : machine) (es fs : list event) :
  logged (logged m es) fs = logged m (es ++ fs).
Proof. unfold logged. simpl. now rewrite app_assoc. Qed.

Lemma api_calls_app (t u : list event) :
  api_calls (t ++ u) = api_calls t ++ api_calls u.
Proof. unfold api_calls. apply flat_map_app. Qed.

Lemma get_claude_client_missing (W : World) (m : machine) :
  truthy (of_optional (environ_api_key W)) = false ->
  get_claude_client W m = (Raise StopException, logged m api_key_missing_events).
Proof.
  intros H. unfold get_claude_client. rewrite H.
  unfold logged, api_key_missing_events. cbn. rewrite <- app_assoc. reflexivity.
Qed.

Lemma get_claude_client_present (W : World) (m : machine) :
  truthy (of_optional (environ_api_key W)) = true ->
  exists key, environ_api_key W = Some key /\
              get_claude_client W m = (Ok {| client_api_key := key |}, m).
Proof.
  intros H. unfold get_claude_client. rewrite H.
  destruct (environ_api_key W) as [key|]; [|discriminate].
  exists key. split; reflexivity.
Qed.

(** [query_claude], case by case. *)
Lemma query_claude_eq (W : World) (q : str) (df : DataFrame) (m : machine) :
  query_claude W q df m =
  match environ_api_key W with
  | Some (c :: k) =>
      let client := {| client_api_key := c :: k |} in
      match json_dumps_records W df with
      | Raise e => (Raise e, m)
      | Ok context =>
          let request := build_request context q in
          match reply_of W client request with
          | Ok text =>
              (Ok text,
               logged m [ApiCall client request;
                         query_log_line (len q) (len text) true])
          | Raise e =>
              if is_Exception e
              then (Ok fallback_message,
                    logged m (ApiCall client request :: failure_events q e))
              else (Raise e, logged m [ApiCall client request])
          end
      end
  | _ => (Raise StopException, logged m api_key_missing_events)
  end.
Proof.
  unfold query_claude, bind at 1.
  destruct (environ_api_key W) as [[|c k]|] eqn:Hkey;
    try (rewrite get_claude_client_missing by (rewrite Hkey; reflexivity);
         reflexivity).
  destruct (get_claude_client_present W m) as (key & Hk & ->);
    [rewrite Hkey; reflexivity|].
  rewrite Hkey in Hk. injection Hk as <-.
  unfold bind at 1, lift at 1.
  destruct (json_dumps_records W df) as [context|e]; [|reflexivity].
  cbv zeta. unfold try_except, reply_of, client_messages_create, bind, lift, emit.
  cbn [session trace].
  destruct (messages_create W _ _) as [message|e].
  - destruct (first_text message) as [text|e] eqn:Ht.
    + unfold log_query, logging_info, emit, ret, logged. simpl.
      rewrite <- app_assoc. reflexivity.
    + destruct e; try reflexivity;
        try (unfold first_text in Ht;
             destruct (message_content message) as [|[]]; discriminate).
      unfold logging_error, log_query, logging_info, emit, ret, logged,
        failure_events, query_log_line. simpl.
      repeat rewrite <- app_assoc. reflexivity.
  - destruct e; try reflexivity.
    unfold logging_error, log_query, logging_info, emit, ret, logged,
      failure_events, query_log_line. simpl.
    repeat rewrite <- app_assoc. reflexivity.
Qed.

(** [query_claude] leaves the session alone. *)
Lemma query_claude_session (W : World) (q : str) (df : DataFrame) (m : machine) :
  session (snd (query_claude W q df m)) = session m.
Proof.
  rewrite query_claude_eq.
  destruct (environ_api_key W) as [[|c k]|]; try reflexivity.
  destruct (json_dumps_records W df); [|reflexivity].
  cbv zeta. destruct (reply_of W _ _) as [text|e]; [reflexivity|].
  destruct (is_Exception e); reflexivity.
Qed.

(** C2, as the code has it.  With the credential present and the
    records serialized, whatever is raised under [try] by the call or by
    reading the first text of the reply, if it derives from [Exception],
    makes the dispatcher return the fixed fallback string and not raise;
    when nothing is raised it returns the text of the model. *)
Theorem query_claude_fail_soft
    (W : World) (q : str) (df : DataFrame) (m : machine)
    (key context : str) :
  environ_api_key W = Some key -> key <> [] ->
  json_dumps_records W df = Ok context ->
  let reply :=
    reply_of W {| client_api_key := key |} (build_request context q) in
  (forall text, reply = Ok text ->
                fst (query_claude W q df m) = Ok text) /\
  (forall e, reply = Raise e -> is_Exception e = true ->
             fst (query_claude W q df m) = Ok fallback_message).
Proof.
  intros Hkey Hne Hjson reply. subst reply.
  rewrite query_claude_eq, Hkey.
  destruct key as [|c k]; [congruence|]. rewrite Hjson. cbv zeta.
  split.
  - intros text ->. reflexivity.
  - intros e -> ->. reflexivity.
Qed.

Lemma query_claude_fail_soft_witness :
  fst (query_claude (sample_world 0) (py "Who works at ICF?") sample_data
         (start new_session)) = Ok sample_reply /\
  fst (query_claude (failing_world 0) (py "Who works at ICF?") sample_data
         (start new_session)) = Ok fallback_message.
Proof.
  split.
  - apply (query_claude_fail_soft (sample_world 0) (py "Who works at ICF?")
             sample_data (start new_session) (py "sk-test")
             (json_dumps_indent2 sample_data));
      [reflexivity | discriminate | reflexivity | reflexivity].
  - apply (query_claude_fail_soft (failing_world 0) (py "Who works at ICF?")
             sample_data (start new_session) (py "sk-test")
             (json_dumps_indent2 sample_data))
      with (e := Exc "APIConnectionError" (py "Connection error."));
      [reflexivity | discriminate | reflexivity | reflexivity | reflexivity].
Defined.

(** C2, as the specification has it, fails: the stop of a missing
    credential and an error in serializing the records are raised before
    [try] and leave the dispatcher. *)
Lemma query_claude_raises_past_boundary :
  fst (query_claude (keyless_world 0) (py "Who works at ICF?") sample_data
         (start new_session)) = Raise StopException /\
  fst (query_claude (unserializable_world 0) (py "Who works at ICF?")
         sample_data (start new_session))
  = Raise (Exc "TypeError" (py "Object of type int64 is not JSON serializable")) /\
  ~ (forall W q df m, exists text, fst (query_claude W q df m) = Ok text).
Proof.
  split; [reflexivity|]. split; [reflexivity|].
  intros H.
  destruct (H (keyless_world 0) (py "Who works at ICF?") sample_data
              (start new_session)) as [text Ht].
  discriminate Ht.
Qed.

(** ** Chat-input handler *)

Lemma handle_user_input_nothing (W : World) (user_input : option str) (m : machine) :
  truthy (of_optional user_input) = false ->
  handle_user_input W user_input m = (Ok tt, m).
Proof. intros H. unfold handle_user_input. rewrite H. reflexivity. Qed.

Lemma short_test (q : str) :
  negb (truthy (PyStr q)) || (len q <? 3) = (len q <? 3).
Proof. destruct q; reflexivity. Qed.

Lemma handle_user_input_invalid (W : World) (text : str) (m : machine) :
  text <> [] ->
  len (sanitize_input (PyStr text)) < 3 ->
  handle_user_input W (Some text) m =
  (Raise StopException, logged m (invalid_input_events (len text))).
Proof.
  intros Hne Hshort. unfold handle_user_input.
  destruct text as [|c t]; [congruence|].
  change (truthy (of_optional (Some (c :: t)))) with true.
  cbn [of_optional when]. rewrite short_test.
  apply Nat.ltb_lt in Hshort. rewrite Hshort.
  unfold logged, invalid_input_events. cbn. rewrite <- app_assoc. reflexivity.
Qed.

Lemma handle_user_input_limited (W : World) (text : str) (m : machine) :
  3 <= len (sanitize_input (PyStr text)) ->
  fst (check_rate_limit (datetime_now W) (session m)) = false ->
  handle_user_input W (Some text) m =
  (Raise StopException,
   logged {| session := snd (check_rate_limit (datetime_now W) (session m));
             trace := trace m |} rate_limit_events).
Proof.
  intros Hlong Hfull. unfold handle_user_input.
  destruct text as [|c t]; [unfold sanitize_input, len in Hlong; simpl in Hlong; lia|].
  change (truthy (of_optional (Some (c :: t)))) with true.
  cbn [of_optional when]. rewrite short_test.
  apply Nat.ltb_ge in Hlong. rewrite Hlong.
  unfold bind at 1. cbn [when ret]. unfold bind at 1, rate_limit_check at 1.
  destruct (check_rate_limit (datetime_now W) (session m)) as [ok s1].
  simpl in Hfull. subst ok.
  unfold logged, rate_limit_events. cbn. rewrite <- app_assoc. reflexivity.
Qed.

Lemma check_rate_limit_frame (now : datetime) (s : session_state) :
  messages (snd (check_rate_limit now s)) = messages s /\
  shown_welcome (snd (check_rate_limit now s)) = shown_welcome s.
Proof.
  rewrite check_rate_limit_eq. cbv zeta.
  destruct (20 <=? List.length (prune now (window s))); split; reflexivity.
Qed.

Lemma mark_welcome_frame (s : session_state) :
  messages (mark_welcome s) = messages s /\
  query_times (mark_welcome s) = query_times s.
Proof. unfold mark_welcome. destruct (is_none (shown_welcome s)); split; reflexivity. Qed.

(** The handler on a question that passes both checks. *)
Lemma handle_user_input_accepted
    (W : World) (text : str) (m : machine) (ms : list ChatMessage) (df : DataFrame) :
  3 <= len (sanitize_input (PyStr text)) ->
  fst (check_rate_limit (datetime_now W) (session m)) = true ->
  messages (session m) = Some ms ->
  read_csv W = Ok df ->
  let q := sanitize_input (PyStr text) in
  let asked :=
    set_messages (ms ++ [ {| role := user; content := q |} ])
      (mark_welcome (snd (check_rate_limit (datetime_now W) (session m)))) in
  let R := query_claude W q df {| session := asked; trace := trace m |} in
  handle_user_input W (Some text) m =
  match fst R with
  | Ok response =>
      (Raise RerunException,
       {| session :=
            set_messages (ms ++ [ {| role := user; content := q |};
                                  {| role := assistant; content := response |} ])
              asked;
          trace := trace (snd R) |})
  | Raise e => (Raise e, snd R)
  end.
Proof.
  intros Hlong Hfree Hms Hcsv q asked R.
  unfold handle_user_input.
  destruct text as [|c t]; [unfold sanitize_input, len in Hlong; simpl in Hlong; lia|].
  change (truthy (of_optional (Some (c :: t)))) with true.
  cbn [of_optional when]. fold q. rewrite short_test.
  apply Nat.ltb_ge in Hlong. fold q in Hlong. rewrite Hlong.
  unfold bind at 1. cbn [when ret]. unfold bind at 1, rate_limit_check at 1.
  destruct (check_rate_limit_frame (datetime_now W) (session m)) as [Hm1 Hw1].
  subst asked R.
  destruct (check_rate_limit (datetime_now W) (session m)) as [ok s1].
  simpl in Hfree, Hm1, Hw1. subst ok. cbn [snd].
  cbn [negb when]. unfold bind at 1, ret at 1.
  unfold bind at 1, get_session at 1. cbn [session].
  assert (Hstep :
    (when (negb (is_none (shown_welcome s1)))
       (modify_session (set_shown_welcome true)))
      {| session := s1; trace := trace m |}
    = (Ok tt, {| session := mark_welcome s1; trace := trace m |})).
  { unfold mark_welcome. destruct (is_none (shown_welcome s1)); reflexivity. }
  unfold bind at 1. rewrite Hstep. clear Hstep.
  destruct (mark_welcome_frame s1) as [Hm2 _].
  unfold bind at 1, messages_append at 1, bind at 1, get_session at 1.
  cbn [session]. rewrite Hm2, Hm1, Hms.
  unfold modify_session at 1. cbn [session trace].
  unfold bind at 1, load_student_data, lift at 1. rewrite Hcsv.
  unfold bind at 1.
  pose proof (query_claude_session W q df
                {| session := set_messages (ms ++ [{| role := user; content := q |}])
                                (mark_welcome s1);
                   trace := trace m |}) as Hsess.
  destruct (query_claude W q df _) as [[response|e] m4]; cbn [fst snd] in *;
    [|reflexivity].
  unfold bind at 1, messages_append at 1, bind at 1, get_session at 1.
  rewrite Hsess. cbn [session messages set_messages].
  unfold modify_session, st_rerun, raise. cbn [session trace].
  rewrite Hsess. rewrite <- app_assoc. reflexivity.
Qed.

Lemma contains_infix (pre sub post : str) :
  contains sub (pre ++ sub ++ post) = true.
Proof.
  induction pre as [|c pre IH].
  - simpl app. destruct (sub ++ post) eqn:E;
      unfold contains; fold contains; rewrite <- E, startswith_app; reflexivity.
  - simpl app. unfold contains; fold contains. rewrite IH. apply orb_true_r.
Qed.

(** The prompt carries the serialized records and the question whole. *)
Lemma user_prompt_contains (context q : str) :
  contains context (user_prompt context q) = true /\
  contains q (user_prompt context q) = true.
Proof.
  unfold user_prompt. split.
  - rewrite (app_assoc _ nl), (app_assoc _ nl). apply contains_infix.
  - rewrite (app_assoc _ nl), (app_assoc _ nl), (app_assoc _ context),
      (app_assoc _ nl), (app_assoc _ nl), (app_assoc _ (py "User question: ")).
    apply contains_infix.
Qed.

(** C6, as the code has it.  A question that has passed the sanitizer
    with three characters or more and the rate limiter, with the
    credential set and the directory loaded and serialized, is sent to
    the model in exactly one call; the user message of that call contains the serialized records
    in full and the question as sanitized; and when the model answers,
    the run ends in a rerun with the transcript longer by two entries,
    the question with role user and then the answer with role
    assistant. *)
Theorem accepted_question_dispatched_once
    (W : World) (text : str) (m : machine) (ms : list ChatMessage)
    (df : DataFrame) (key context : str) :
  3 <= len (sanitize_input (PyStr text)) ->
  fst (check_rate_limit (datetime_now W) (session m)) = true ->
  messages (session m) = Some ms ->
  environ_api_key W = Some key -> key <> [] ->
  read_csv W = Ok df ->
  json_dumps_records W df = Ok context ->
  let q := sanitize_input (PyStr text) in
  let request := build_request context q in
  let R := handle_user_input W (Some text) m in
  api_calls (trace (snd R)) = api_calls (trace m) ++ [request] /\
  (exists payload,
      request_messages request = [ {| role := user; content := payload |} ] /\
      contains context payload = true /\
      contains q payload = true) /\
  (forall reply,
      reply_of W {| client_api_key := key |} request = Ok reply ->
      fst R = Raise RerunException /\
      messages (session (snd R)) =
      Some (ms ++ [ {| role := user; content := q |};
                    {| role := assistant; content := reply |} ])).
Proof.
  intros Hlong Hfree Hms Hkey Hne Hcsv Hjson q request R.
  subst R. rewrite (handle_user_input_accepted W text m ms df Hlong Hfree Hms Hcsv).
  cbv zeta. fold q. rewrite query_claude_eq, Hkey.
  destruct key as [|c k]; [congruence|]. rewrite Hjson. cbv zeta. fold request.
  split; [|split].
  - destruct (reply_of W _ request) as [reply|e]; cbn [fst snd trace logged].
    + rewrite api_calls_app. reflexivity.
    + destruct (is_Exception e); cbn [fst snd trace logged];
        rewrite api_calls_app; reflexivity.
  - exists (user_prompt context q). split; [reflexivity|].
    apply user_prompt_contains.
  - intros reply ->. cbn [fst snd]. split; reflexivity.
Qed.

Lemma accepted_question_dispatched_once_witness :
  let q := py "Who works at ICF?" in
  let R := handle_user_input (sample_world 0) (Some q) (start opened_session) in
  api_calls (trace (snd R)) = [build_request (json_dumps_indent2 sample_data) q] /\
  fst R = Raise RerunException /\
  messages (session (snd R)) =
  Some [ {| role := user; content := q |};
         {| role := assistant; content := sample_reply |} ].
Proof.
  cbv zeta.
  destruct (accepted_question_dispatched_once
              (sample_world 0) (py "Who works at ICF?") (start opened_session)
              [] sample_data (py "sk-test") (json_dumps_indent2 sample_data))
    as (Hcalls & _ & Hgrow);
    [vm_compute; lia | reflexivity | reflexivity | reflexivity
     | discriminate | reflexivity | reflexivity |].
  split; [exact Hcalls|].
  apply (Hgrow sample_reply). reflexivity.
Defined.

(** C6, as the specification has it, fails: acceptance by the sanitizer
    and the rate limiter and a loaded directory are not enough for a
    call.  With the credential missing the accepted question
    [Who works at ICF?] is counted and appended to the transcript, and
    the run is stopped in the dispatcher before any call is made. *)
Lemma accepted_question_without_credential_not_dispatched :
  let q := py "Who works at ICF?" in
  let m := start opened_session in
  let R := handle_user_input (keyless_world 0) (Some q) m in
  3 <= len (sanitize_input (PyStr q)) /\
  fst (check_rate_limit (datetime_now (keyless_world 0)) (session m)) = true /\
  read_csv (keyless_world 0) = Ok sample_data /\
  fst R = Raise StopException /\
  api_calls (trace (snd R)) = [] /\
  messages (session (snd R)) = Some [ {| role := user; content := q |} ] /\
  ~ (forall (W : World) (text : str) (m : machine)
            (ms : list ChatMessage) (df : DataFrame),
        3 <= len (sanitize_input (PyStr text)) ->
        fst (check_rate_limit (datetime_now W) (session m)) = true ->
        messages (session m) = Some ms ->
        read_csv W = Ok df ->
        List.length (api_calls (trace (snd (handle_user_input W (Some text) m))))
        = List.length (api_calls (trace m)) + 1).
Proof.
  cbv zeta.
  assert (Hlong : 3 <= len (sanitize_input (PyStr (py "Who works at ICF?"))))
    by (vm_compute; lia).
  split; [exact Hlong|].
  split; [reflexivity|]. split; [reflexivity|].
  split; [vm_compute; reflexivity|]. split; [vm_compute; reflexivity|].
  split; [vm_compute; reflexivity|].
  intros H.
  specialize (H (keyless_world 0) (py "Who works at ICF?") (start opened_session)
                [] sample_data Hlong eq_refl eq_refl eq_refl).
  vm_compute in H. discriminate H.
Qed.

(** The scenario of the specification, run from the top of the script. *)
Example who_works_at_ICF :
  let q := py "Who works at ICF?" in
  let R := run_script (sample_world 0) (chat_submit q) new_session in
  fst R = Rerun /\
  api_calls (trace (snd R)) = [build_request (json_dumps_indent2 sample_data) q] /\
  contains (py "ICF") (json_dumps_indent2 sample_data) = true /\
  transcript (session (snd R)) =
  [ {| role := user; content := q |};
    {| role := assistant; content := sample_reply |} ].
Proof. vm_compute. repeat split. Qed.

(** C7.  When the sanitized input has fewer than three characters, as
    for the input [hi], the handler stops before the rate limiter and
    the dispatcher are reached: no call is made to the model, and the
    session, its transcript and its window of timestamps, is what it
    was.  (An empty input, or none, is not handled at all.) *)
Theorem short_input_rejected
    (W : World) (user_input : option str) (m : machine) :
  len (sanitize_input (of_optional user_input)) < 3 ->
  let R := handle_user_input W user_input m in
  fst R = (if truthy (of_optional user_input)
           then Raise StopException else Ok tt) /\
  session (snd R) = session m /\
  api_calls (trace (snd R)) = api_calls (trace m).
Proof.
  intros Hshort. cbv zeta.
  destruct (truthy (of_optional user_input)) eqn:Htruthy.
  - destruct user_input as [[|c t]|]; try discriminate.
    rewrite handle_user_input_invalid by (congruence || exact Hshort).
    cbn [fst snd logged session trace]. rewrite api_calls_app.
    repeat split. apply app_nil_r.
  - rewrite handle_user_input_nothing by exact Htruthy. repeat split.
Qed.

Lemma short_input_rejected_witness :
  let R := handle_user_input (sample_world 0) (Some (py "hi"))
             (start opened_session) in
  fst R = Raise StopException /\
  session (snd R) = opened_session /\
  api_calls (trace (snd R)) = [].
Proof.
  apply (short_input_rejected (sample_world 0) (Some (py "hi"))
           (start opened_session)).
  vm_compute. lia.
Defined.

Example hi_is_rejected :
  let R := run_script (sample_world 0) (chat_submit (py "hi")) new_session in
  fst R = Stopped /\
  session (snd R) = opened_session /\
  trace (snd R) = invalid_input_events 2.
Proof. vm_compute. repeat split. Qed.

(** The entry the handler appends for the user is the output of the
    sanitizer on what was typed. *)
Lemma user_entry_is_sanitized
    (W : World) (text : str) (m : machine) (ms : list ChatMessage) (df : DataFrame) :
  3 <= len (sanitize_input (PyStr text)) ->
  fst (check_rate_limit (datetime_now W) (session m)) = true ->
  messages (session m) = Some ms ->
  read_csv W = Ok df ->
  let R := handle_user_input W (Some text) m in
  exists rest,
    transcript (session (snd R)) =
    ms ++ {| role := user; content := sanitize_input (PyStr text) |} :: rest.
Proof.
  intros Hlong Hfree Hms Hcsv. cbv zeta.
  rewrite (handle_user_input_accepted W text m ms df Hlong Hfree Hms Hcsv).
  cbv zeta.
  match goal with |- context [query_claude ?W ?q ?df ?m0] =>
    pose proof (query_claude_session W q df m0) as Hs;
    destruct (query_claude W q df m0) as [[response|e] m4]
  end; cbn [fst snd] in *.
  - eexists. unfold transcript. cbn. reflexivity.
  - exists []. rewrite Hs. reflexivity.
Qed.

(** C10.  The entry appended for the user is the sanitized input, and
    yet a denylisted substring that the sanitizer strips can stand in
    it: on [<scr<scr<script>ipt>ipt>] the two scans for [<script>] each
    remove one occurrence and leave [<script>], which is what the
    transcript then holds. *)
Theorem transcript_keeps_reassembled_pattern :
  let raw := py "<scr<scr<script>ipt>ipt>" in
  let R := run_script (sample_world 0) (chat_submit raw) new_session in
  In (py "<script>") dangerous_patterns /\
  contains (py "<script>") raw = true /\
  sanitize_input (PyStr raw) = py "<script>" /\
  transcript (session (snd R)) =
  [ {| role := user; content := py "<script>" |};
    {| role := assistant; content := sample_reply |} ].
Proof.
  cbv zeta. split; [left; reflexivity|].
  repeat split; vm_compute; reflexivity.
Qed.

(** ** The script as a whole *)

Arguments handle_user_input : simpl never.

(** The script, case by case, down to the handler. *)
Lemma script_eq (W : World) (w : Widgets) (s : session_state) :
  script W w (start s) =
  match read_csv W with
  | Raise e => (Raise e, start (set_messages (transcript s) s))
  | Ok _ =>
      if clear_chat_clicked w
      then (Raise RerunException, start (set_messages [] s))
      else if negb (match shown_welcome s with Some b => b | None => false end)
              && got_it_clicked w
      then (Raise RerunException,
            start (set_shown_welcome true (init_session s)))
      else
        match handle_user_input W (chat_input w) (start (init_session s)) with
        | (Ok _, m) => (Ok tt, m)
        | (Raise e, m) => (Raise e, m)
        end
  end.
Proof.
  unfold script, show_career_services_modal, load_student_data, lift, start,
    init_session, transcript.
  destruct (read_csv W) as [df|e], (clear_chat_clicked w), (got_it_clicked w),
    s as [[ms|] q [[|]|]]; unfold bind, ret; cbn; try reflexivity.
  all: match goal with |- context [handle_user_input ?W ?u ?m0] =>
         destruct (handle_user_input W u m0) as [[[]|e] m] end; reflexivity.
Qed.

Lemma query_claude_keyless (W : World) (q : str) (df : DataFrame) (m : machine) :
  truthy (of_optional (environ_api_key W)) = false ->
  query_claude W q df m = (Raise StopException, logged m api_key_missing_events).
Proof.
  intros H. rewrite query_claude_eq.
  destruct (environ_api_key W) as [[|c k]|]; try reflexivity. discriminate H.
Qed.

(** The answer of the limiter depends on the window alone. *)
Lemma check_rate_limit_init_session (now : datetime) (s : session_state) :
  fst (check_rate_limit now (init_session s)) = fst (check_rate_limit now s).
Proof.
  rewrite !check_rate_limit_eq. cbv zeta.
  change (window (init_session s)) with (window s).
  destruct (20 <=? List.length (prune now (window s))); reflexivity.
Qed.

(** The ways the handler can go, once the transcript exists and the
    directory loads. *)
Lemma handle_user_input_cases
    (W : World) (user_input : option str) (m : machine)
    (ms : list ChatMessage) (df : DataFrame) :
  messages (session m) = Some ms ->
  read_csv W = Ok df ->
  let R := handle_user_input W user_input m in
  let checked := check_rate_limit (datetime_now W) (session m) in
  R = (Ok tt, m) \/
  (exists n, R = (Raise StopException, logged m (invalid_input_events n))) \/
  R = (Raise StopException,
       logged {| session := snd checked; trace := trace m |} rate_limit_events) \/
  (exists text,
      user_input = Some text /\
      3 <= len (sanitize_input (PyStr text)) /\
      fst checked = true /\
      let q := sanitize_input (PyStr text) in
      let asked :=
        set_messages (ms ++ [ {| role := user; content := q |} ])
          (mark_welcome (snd checked)) in
      let Q := query_claude W q df {| session := asked; trace := trace m |} in
      R = match fst Q with
          | Ok response =>
              (Raise RerunException,
               {| session :=
                    set_messages
                      (ms ++ [ {| role := user; content := q |};
                               {| role := assistant; content := response |} ])
                      asked;
                  trace := trace (snd Q) |})
          | Raise e => (Raise e, snd Q)
          end).
Proof.
  intros Hms Hcsv. cbv zeta.
  destruct (truthy (of_optional user_input)) eqn:Htruthy;
    [|left; now apply handle_user_input_nothing].
  destruct user_input as [[|c t]|]; try discriminate. right.
  destruct (Nat.lt_ge_cases (len (sanitize_input (PyStr (c :: t)))) 3)
    as [Hshort|Hlong].
  - left. eexists. apply handle_user_input_invalid; [congruence|exact Hshort].
  - right.
    destruct (fst (check_rate_limit (datetime_now W) (session m))) eqn:Hfree.
    + right. exists (c :: t). repeat split; try assumption.
      apply (handle_user_input_accepted W (c :: t) m ms df Hlong Hfree Hms Hcsv).
    + left. now apply handle_user_input_limited.
Qed.

(** C3, as the code has it.  With the credential missing (or empty) no
    run of the script calls the model or adds an assistant entry to the
    transcript, and a question that passes the sanitizer and the rate
    limiter is stopped in the dispatcher with the operator-facing error
    shown and logged.  The credential is looked up there, for each
    question, and nowhere before. *)
Theorem missing_credential_blocks_dispatch
    (W : World) (w : Widgets) (s : session_state) :
  truthy (of_optional (environ_api_key W)) = false ->
  let R := run_script W w s in
  api_calls (trace (snd R)) = [] /\
  (forall entry,
      In entry (transcript (session (snd R))) -> role entry = assistant ->
      In entry (transcript s)) /\
  (forall text df,
      chat_input w = Some text ->
      clear_chat_clicked w = false -> got_it_clicked w = false ->
      read_csv W = Ok df ->
      3 <= len (sanitize_input (PyStr text)) ->
      fst (check_rate_limit (datetime_now W) s) = true ->
      fst R = Stopped /\ trace (snd R) = api_key_missing_events).
Proof.
  intros Hkey. cbv zeta. unfold run_script.
  change {| session := s; trace := [] |} with (start s).
  rewrite script_eq.
  assert (Hfirst :
    forall R : result unit * machine,
      R = script W w (start s) ->
      api_calls (trace (snd R)) = [] /\
      (forall entry,
          In entry (transcript (session (snd R))) -> role entry = assistant ->
          In entry (transcript s))).
  { intros R ->. rewrite script_eq.
    destruct (read_csv W) as [df|e] eqn:Hcsv;
      [|cbn; split; [reflexivity | intros entry H _; exact H]].
    destruct (clear_chat_clicked w);
      [cbn; split; [reflexivity | intros entry []]|].
    destruct (negb _ && got_it_clicked w);
      [cbn; split; [reflexivity | intros entry H _; exact H]|].
    destruct (handle_user_input_cases W (chat_input w) (start (init_session s))
                (transcript s) df eq_refl Hcsv)
      as [HR|[[n HR]|[HR|(text & _ & _ & _ & HR)]]];
      cbv zeta in HR; rewrite HR; clear HR.
    - cbn. split; [reflexivity | intros entry H _; exact H].
    - cbn. split; [reflexivity | intros entry H _; exact H].
    - cbn [fst snd logged session trace start]. split; [reflexivity|].
      intros entry H _. unfold transcript in H.
      destruct (check_rate_limit_frame (datetime_now W) (init_session s)) as [Hm _].
      rewrite Hm in H. exact H.
    - rewrite query_claude_keyless by exact Hkey.
      cbn [fst snd logged session trace start]. split; [reflexivity|].
      intros entry H Hrole. unfold transcript in H. cbn in H.
      apply in_app_or in H as [H|[<-|[]]]; [exact H|discriminate Hrole]. }
  rewrite <- script_eq.
  destruct (Hfirst _ eq_refl) as [Hcalls Hentries].
  destruct (script W w (start s)) as [r m'] eqn:HR.
  cbn [fst snd] in *. split; [exact Hcalls|]. split; [exact Hentries|].
  intros text df Hin Hclear Hgot Hcsv Hlong Hfree.
  rewrite script_eq, Hcsv, Hclear, Hgot, andb_false_r, Hin in HR.
  rewrite <- check_rate_limit_init_session in Hfree.
  rewrite (handle_user_input_accepted W text (start (init_session s))
             (transcript s) df Hlong Hfree eq_refl Hcsv) in HR.
  cbv zeta in HR. rewrite query_claude_keyless in HR by exact Hkey.
  cbn [fst snd] in HR. injection HR as <- <-. split; reflexivity.
Qed.

Lemma missing_credential_blocks_dispatch_witness :
  let R := run_script (keyless_world 0) (chat_submit (py "Who works at ICF?"))
             new_session in
  api_calls (trace (snd R)) = [] /\
  fst R = Stopped /\
  trace (snd R) = api_key_missing_events.
Proof.
  cbv zeta.
  destruct (missing_credential_blocks_dispatch (keyless_world 0)
              (chat_submit (py "Who works at ICF?")) new_session eq_refl)
    as (Hcalls & _ & Hstop).
  split; [exact Hcalls|].
  apply (Hstop (py "Who works at ICF?") sample_data); try reflexivity.
  vm_compute. lia.
Defined.

(** C3, as the specification has it, fails: with the credential missing
    the first run of the script completes, with no error shown and
    nothing stopped, and when a question comes it is sanitized, counted
    by the rate limiter and appended to the transcript before the
    credential is looked up. *)
Lemma missing_credential_not_checked_at_startup :
  run_script (keyless_world 0) page_load new_session
  = (Completed, start opened_session) /\
  session (snd (run_script (keyless_world 0)
                  (chat_submit (py "Who works at ICF?")) new_session))
  = {| messages := Some [ {| role := user; content := py "Who works at ICF?" |} ];
       query_times := Some [0%Z];
       shown_welcome := Some true |}.
Proof. split; vm_compute; reflexivity. Qed.

(** Writing the other keys of a session does not matter to the limiter. *)
Lemma limiter_reachable_frame (s s' : session_state) :
  limiter_reachable s -> query_times s' = query_times s -> limiter_reachable s'.
Proof.
  intros H E. destruct s' as [m q w]. simpl in E. subst q.
  now apply reach_other.
Qed.

(** A run of the script takes a session the limiter can meet to another:
    the script writes [query_times] through [check_rate_limit] only. *)
Lemma run_script_reachable (W : World) (w : Widgets) (s : session_state) :
  limiter_reachable s ->
  limiter_reachable (session (snd (run_script W w s))).
Proof.
  intros Hs. unfold run_script.
  change {| session := s; trace := [] |} with (start s).
  destruct (script W w (start s)) as [r m'] eqn:HR. cbn [snd].
  rewrite script_eq in HR.
  assert (Hinit : limiter_reachable (init_session s))
    by (apply (limiter_reachable_frame s); [exact Hs|reflexivity]).
  destruct (read_csv W) as [df|e] eqn:Hcsv;
    [|injection HR as <- <-; apply (limiter_reachable_frame s); [exact Hs|reflexivity]].
  destruct (clear_chat_clicked w);
    [injection HR as <- <-; apply (limiter_reachable_frame s); [exact Hs|reflexivity]|].
  destruct (negb _ && got_it_clicked w);
    [injection HR as <- <-; apply (limiter_reachable_frame s); [exact Hs|reflexivity]|].
  assert (Hhandler :
    limiter_reachable
      (session (snd (handle_user_input W (chat_input w) (start (init_session s)))))).
  { destruct (handle_user_input_cases W (chat_input w) (start (init_session s))
                (transcript s) df eq_refl Hcsv)
      as [E|[[n E]|[E|(text & _ & _ & _ & E)]]]; cbv zeta in E; rewrite E; clear E.
    - exact Hinit.
    - exact Hinit.
    - cbn [snd logged session start]. now apply reach_check.
    - match goal with |- context [query_claude ?W ?q ?df ?m0] =>
        pose proof (query_claude_session W q df m0) as Hsess;
        destruct (query_claude W q df m0) as [[response|e] m4]
      end; cbn [fst snd session] in *.
      + eapply limiter_reachable_frame;
          [apply (reach_check (init_session s) (datetime_now W) Hinit)|].
        cbn [start session query_times set_messages].
        apply mark_welcome_frame.
      + rewrite Hsess.
        eapply limiter_reachable_frame;
          [apply (reach_check (init_session s) (datetime_now W) Hinit)|].
        cbn [start session query_times set_messages].
        apply mark_welcome_frame. }
  destruct (handle_user_input W (chat_input w) (start (init_session s)))
    as [[[]|e] m]; injection HR as <- <-; exact Hhandler.
Qed.

(** * Further properties *)

(** ** The sanitizer only deletes *)

Lemma subsequence_refl (s : str) : subsequence s s.
Proof. induction s; constructor; assumption. Qed.

Lemma subsequence_nil_l (s : str) : subsequence [] s.
Proof. induction s; constructor; assumption. Qed.

Lemma subsequence_trans (a b c : str) :
  subsequence a b -> subsequence b c -> subsequence a c.
Proof.
  intros Hab Hbc. revert a Hab.
  induction Hbc as [|x b c _ IH|x b c _ IH]; intros a Hab.
  - exact Hab.
  - apply subsequence_skip. now apply IH.
  - inversion Hab; subst.
    + apply subsequence_skip. now apply IH.
    + apply subsequence_keep. now apply IH.
Qed.

Lemma subsequence_length (a b : str) :
  subsequence a b -> List.length a <= List.length b.
Proof. induction 1; simpl; lia. Qed.

Lemma subsequence_In (a b : str) (c : char) :
  subsequence a b -> In c a -> In c b.
Proof.
  induction 1 as [|x a b _ IH|x a b _ IH]; simpl; intros Hin.
  - exact Hin.
  - right. now apply IH.
  - destruct Hin as [->|Hin]; [now left | right; now apply IH].
Qed.

Lemma replace_scan_subsequence (old : str) (k : nat) (s : str) :
  subsequence (replace_scan old [] k s) s.
Proof.
  revert k. induction s as [|c s IH]; intros k; cbn [replace_scan].
  - constructor.
  - destruct k as [|k].
    + destruct (startswith old (c :: s)); cbn [app].
      * apply subsequence_skip, IH.
      * apply subsequence_keep, IH.
    + apply subsequence_skip, IH.
Qed.

Lemma flat_map_singleton (s : str) : flat_map (fun c => [c]) s = s.
Proof. induction s as [|c s IH]; [reflexivity|]. simpl. now rewrite IH. Qed.

Lemma replace_remove_subsequence (old s : str) :
  subsequence (replace old [] s) s.
Proof.
  destruct old as [|a old]; unfold replace.
  - cbn [app]. rewrite flat_map_singleton. apply subsequence_refl.
  - apply replace_scan_subsequence.
Qed.

Lemma strip_pattern_subsequence (s pattern : str) :
  subsequence (strip_pattern s pattern) s.
Proof.
  unfold strip_pattern.
  eapply subsequence_trans; [apply replace_remove_subsequence|].
  eapply subsequence_trans; apply replace_remove_subsequence.
Qed.

Lemma strip_patterns_subsequence (patterns : list str) (s : str) :
  subsequence (fold_left strip_pattern patterns s) s.
Proof.
  revert s. induction patterns as [|p patterns IH]; intros s; cbn [fold_left].
  - apply subsequence_refl.
  - eapply subsequence_trans; [apply IH|apply strip_pattern_subsequence].
Qed.

Lemma slice_to_subsequence (n : nat) (s : str) : subsequence (slice_to n s) s.
Proof.
  unfold slice_to. revert n. induction s as [|c s IH]; intros [|n]; cbn [firstn].
  - constructor.
  - constructor.
  - apply subsequence_nil_l.
  - apply subsequence_keep, IH.
Qed.

(** X1.  The sanitizer only deletes: on every string its output is the
    input with some characters left out, in the same order, so it is no
    longer than the input and holds no character the input did not. *)
Theorem sanitize_input_only_deletes (s : str) :
  subsequence (sanitize_input (PyStr s)) s /\
  len (sanitize_input (PyStr s)) <= len s /\
  (forall c, In c (sanitize_input (PyStr s)) -> In c s).
Proof.
  assert (H : subsequence (sanitize_input (PyStr s)) s).
  { rewrite sanitize_input_str.
    eapply subsequence_trans;
      [apply slice_to_subsequence | apply strip_patterns_subsequence]. }
  split; [exact H|]. split.
  - apply subsequence_length. exact H.
  - intros c. now apply subsequence_In.
Qed.

(** X2.  A text in which no denylisted pattern occurs as listed, in lower
    case or in upper case comes out as it went in, cut to its first 500
    characters. *)
Theorem sanitize_input_clean_cut (s : str) :
  clean s = true -> sanitize_input (PyStr s) = slice_to 500 s.
Proof.
  intros Hclean. rewrite sanitize_input_str.
  now rewrite (strip_patterns_clean dangerous_patterns s
                 dangerous_patterns_nonempty Hclean).
Qed.

Lemma sanitize_input_clean_cut_witness :
  sanitize_input (PyStr (py "Who works at ICF?")) = py "Who works at ICF?".
Proof.
  rewrite (sanitize_input_clean_cut (py "Who works at ICF?"));
    vm_compute; reflexivity.
Defined.

(** ** The rate limiter over time *)

(** What is fresh later was fresh before. *)
Lemma prune_prune (now later : datetime) (times : list datetime) :
  (now <= later)%Z -> prune later (prune now times) = prune later times.
Proof.
  intros Hle. unfold prune. induction times as [|t times IH]; [reflexivity|].
  cbn [filter].
  destruct (later - t <? one_hour)%Z eqn:Hlater.
  - assert (Hnow : (now - t <? one_hour)%Z = true)
      by (apply Z.ltb_lt; apply Z.ltb_lt in Hlater; lia).
    rewrite Hnow. cbn [filter]. rewrite Hlater. now rewrite IH.
  - destruct (now - t <? one_hour)%Z; cbn [filter]; [rewrite Hlater|]; exact IH.
Qed.

Lemma prune_app (now : datetime) (a b : list datetime) :
  prune now (a ++ b) = prune now a ++ prune now b.
Proof. unfold prune. apply filter_app. Qed.

(** The window after a call, in terms of the window before. *)
Lemma check_rate_limit_window (now : datetime) (s : session_state) :
  window (snd (check_rate_limit now s)) =
  prune now (window s)
  ++ (if fst (check_rate_limit now s) then [now] else []).
Proof.
  rewrite check_rate_limit_eq. cbv zeta.
  destruct (20 <=? List.length (prune now (window s))); cbn [fst snd].
  - rewrite window_set_query_times. now rewrite app_nil_r.
  - now rewrite window_set_query_times.
Qed.

(** X3.  In any run of attempts, at any clock readings, the accepted
    attempts that are less than one hour old at a time [t] not before
    any of them, together with the timestamps the session held before
    and that are still less than one hour old at [t], number at most 20:
    no rolling hour sees more than 20 accepted attempts. *)
Theorem accepted_attempts_bounded
    (ts : list datetime) (s : session_state) (t : datetime) :
  limiter_reachable s ->
  Forall (fun u => (u <= t)%Z) ts ->
  List.length (prune t (accepted_times ts s))
  + List.length (prune t (window s)) <= 20.
Proof.
  intros Hreach Hpast. revert s Hreach.
  induction Hpast as [|u ts Hu _ IH]; intros s Hreach; cbn [accepted_times].
  - pose proof (limiter_reachable_bound s Hreach).
    pose proof (prune_length t (window s)). simpl. lia.
  - specialize (IH _ (reach_check s u Hreach)).
    rewrite check_rate_limit_window, !prune_app, prune_prune in IH by exact Hu.
    rewrite prune_app, !length_app in *. lia.
Qed.

Lemma accepted_attempts_bounded_witness :
  List.length (prune (25 * minute)%Z (accepted_times
                 (minute_marks ++ [(20 * minute)%Z; (21 * minute)%Z])
                 new_session)) <= 20.
Proof.
  pose proof (accepted_attempts_bounded
                (minute_marks ++ [(20 * minute)%Z; (21 * minute)%Z])
                new_session (25 * minute)%Z) as H.
  assert (R : limiter_reachable new_session) by (apply reach_new; reflexivity).
  assert (P : Forall (fun u => (u <= 25 * minute)%Z)
                (minute_marks ++ [(20 * minute)%Z; (21 * minute)%Z])).
  { apply Forall_forall. intros u Hu.
    assert (B : forallb (fun u => (u <=? 25 * minute)%Z)
                  (minute_marks ++ [(20 * minute)%Z; (21 * minute)%Z]) = true)
      by (vm_compute; reflexivity).
    rewrite forallb_forall in B. apply Z.leb_le. now apply B. }
  specialize (H R P). lia.
Defined.

(** X4.  Up to twenty attempts in a new session, all within one hour of
    one another, are accepted one and all: the window then holds exactly
    their times, in order. *)
Theorem first_twenty_attempts_accepted (ts : list datetime) (s : session_state) :
  query_times s = None ->
  List.length ts <= 20 ->
  (forall u t, In u ts -> In t ts -> (t - u < one_hour)%Z) ->
  window (attempts ts s) = ts /\ accepted_times ts s = ts.
Proof.
  intros Hnew Hlen Hnear. split; [now apply attempts_fill_window|].
  assert (Hgen : forall done todo s0,
             window s0 = done ->
             List.length (done ++ todo) <= 20 ->
             (forall u t, In u (done ++ todo) -> In t (done ++ todo) ->
                          (t - u < one_hour)%Z) ->
             accepted_times todo s0 = todo).
  { intros done todo. revert done.
    induction todo as [|t todo IH]; intros done s0 Hw Hl Hn; [reflexivity|].
    cbn [accepted_times].
    assert (Hfresh : prune t (window s0) = window s0).
    { apply prune_all_fresh, Forall_forall. intros u Hu. rewrite Hw in Hu.
      apply Hn; apply in_or_app; [now left | right; now left]. }
    assert (Hok : fst (check_rate_limit t s0) = true).
    { rewrite check_rate_limit_eq. cbv zeta. rewrite Hfresh, Hw.
      rewrite length_app in Hl. simpl in Hl.
      destruct (Nat.leb_spec 20 (List.length done)); [lia|reflexivity]. }
    rewrite Hok. cbn [app]. f_equal.
    apply (IH (done ++ [t])).
    - rewrite check_rate_limit_window, Hok, Hfresh, Hw. reflexivity.
    - now rewrite <- app_assoc.
    - intros u v. rewrite <- app_assoc. apply Hn. }
  apply (Hgen [] ts s); [unfold window; now rewrite Hnew | exact Hlen | exact Hnear].
Qed.

Lemma first_twenty_attempts_accepted_witness :
  window (attempts minute_marks new_session) = minute_marks /\
  accepted_times minute_marks new_session = minute_marks.
Proof.
  apply (first_twenty_attempts_accepted minute_marks new_session);
    [reflexivity | vm_compute; lia |].
  intros u t Hu Ht.
  assert (B : forallb (fun u => forallb (fun t => (t - u <? one_hour)%Z)
                                  minute_marks) minute_marks = true)
    by (vm_compute; reflexivity).
  rewrite forallb_forall in B. specialize (B u Hu).
  rewrite forallb_forall in B. apply Z.ltb_lt. now apply B.
Defined.

(** Pruning and recording keep a window in time order. *)
Lemma prune_sorted (now : datetime) (times : list datetime) :
  StronglySorted Z.le times -> StronglySorted Z.le (prune now times).
Proof.
  unfold prune. induction 1 as [|t times _ IH Hall]; cbn [filter]; [constructor|].
  destruct (now - t <? one_hour)%Z; [|exact IH].
  constructor; [exact IH|].
  apply Forall_forall. intros u Hu. apply filter_In in Hu as [Hu _].
  rewrite Forall_forall in Hall. now apply Hall.
Qed.

Lemma sorted_snoc (times : list datetime) (now : datetime) :
  StronglySorted Z.le times -> Forall (fun t => (t <= now)%Z) times ->
  StronglySorted Z.le (times ++ [now]).
Proof.
  induction 1 as [|t times _ IH Hall]; intros Hpast; cbn [app].
  - constructor; constructor.
  - inversion Hpast as [|? ? Ht Hrest]; subst.
    constructor; [now apply IH|].
    apply Forall_app. split; [exact Hall|]. constructor; [exact Ht|constructor].
Qed.

(** X5.  While the clock does not run backwards the window stays in time
    order, oldest first: if it is ordered and holds nothing later than
    the clock reading of a call, it is ordered after the call and holds
    nothing later than that reading. *)
Theorem check_rate_limit_keeps_order (now : datetime) (s : session_state) :
  StronglySorted Z.le (window s) ->
  Forall (fun t => (t <= now)%Z) (window s) ->
  let s' := snd (check_rate_limit now s) in
  StronglySorted Z.le (window s') /\
  Forall (fun t => (t <= now)%Z) (window s').
Proof.
  intros Hsorted Hpast. cbv zeta. rewrite check_rate_limit_window.
  assert (Hkept : Forall (fun t => (t <= now)%Z) (prune now (window s))).
  { apply Forall_forall. intros t Ht. apply prune_In in Ht as [Ht _].
    rewrite Forall_forall in Hpast. now apply Hpast. }
  destruct (fst (check_rate_limit now s)).
  - split.
    + apply sorted_snoc; [now apply prune_sorted | exact Hkept].
    + apply Forall_app. split; [exact Hkept|]. constructor; [lia|constructor].
  - rewrite app_nil_r. split; [now apply prune_sorted | exact Hkept].
Qed.

Lemma check_rate_limit_keeps_order_witness :
  let s' := snd (check_rate_limit (60 * minute)%Z busy_session) in
  StronglySorted Z.le (window s') /\
  Forall (fun t => (t <= 60 * minute)%Z) (window s').
Proof.
  assert (E : window busy_session = minute_marks) by (vm_compute; reflexivity).
  apply (check_rate_limit_keeps_order (60 * minute)%Z busy_session); rewrite E.
  - unfold minute_marks. cbn [map seq].
    repeat (apply SSorted_cons || apply SSorted_nil);
      repeat (apply Forall_cons || apply Forall_nil);
      vm_compute; discriminate.
  - unfold minute_marks. cbn [map seq].
    repeat (apply Forall_cons || apply Forall_nil); vm_compute; discriminate.
Defined.

(** ** The dispatcher and its log *)

Lemma log_lines_app (t u : list event) :
  log_lines (t ++ u) = log_lines t ++ log_lines u.
Proof. unfold log_lines. apply flat_map_app. Qed.

(** What the dispatcher adds to the trace holds at most one call. *)
Lemma query_claude_added (W : World) (q : str) (df : DataFrame) (m : machine) :
  exists added,
    trace (snd (query_claude W q df m)) = trace m ++ added /\
    List.length (api_calls added) <= 1.
Proof.
  rewrite query_claude_eq.
  destruct (environ_api_key W) as [[|c k]|];
    try (exists api_key_missing_events; split; [reflexivity|simpl; lia]).
  destruct (json_dumps_records W df) as [context|e];
    [|exists []; split; [symmetry; apply app_nil_r|simpl; lia]].
  cbv zeta. destruct (reply_of W _ _) as [text|e].
  - eexists. split; [reflexivity|simpl; lia].
  - destruct (is_Exception e); eexists; (split; [reflexivity|simpl; lia]).
Qed.

(** X6.  The dispatcher never touches the session and never takes an
    event back: whatever it returns or raises, the session is the one it
    was called in, and the trace is the old one followed by what it
    added, among which there is at most one call to the model. *)
Theorem query_claude_frame (W : World) (q : str) (df : DataFrame) (m : machine) :
  let R := query_claude W q df m in
  session (snd R) = session m /\
  exists added,
    trace (snd R) = trace m ++ added /\
    List.length (api_calls added) <= 1.
Proof.
  cbv zeta. split; [apply query_claude_session | apply query_claude_added].
Qed.

(** X7.  The dispatcher returns only after one call to the model and one
    line of [log_query]: when it returns a text, the trace has grown by
    the call followed either by the line of a success with the lengths
    of the question and of that text, or, the text being the fallback
    message, by the error line and the line of a failure. *)
Theorem query_claude_returns_after_call
    (W : World) (q : str) (df : DataFrame) (m : machine) (r : str) :
  fst (query_claude W q df m) = Ok r ->
  exists client request lines,
    trace (snd (query_claude W q df m))
    = trace m ++ ApiCall client request :: lines /\
    (lines = [query_log_line (len q) (len r) true] \/
     r = fallback_message /\ exists e, lines = failure_events q e).
Proof.
  rewrite query_claude_eq.
  destruct (environ_api_key W) as [[|c k]|]; try discriminate.
  destruct (json_dumps_records W df) as [context|e]; [|discriminate].
  cbv zeta. destruct (reply_of W _ _) as [text|e].
  - cbn [fst snd]. intros H. injection H as <-.
    eexists _, _, _. split; [reflexivity|]. left. reflexivity.
  - destruct (is_Exception e); [|discriminate].
    cbn [fst snd]. intros H. injection H as <-.
    eexists _, _, _. split; [reflexivity|]. right. split; [reflexivity|].
    exists e. reflexivity.
Qed.

Lemma query_claude_returns_after_call_witness :
  exists client request lines,
    trace (snd (query_claude (failing_world 0) (py "Who works at ICF?")
                  sample_data (start new_session)))
    = trace (start new_session) ++ ApiCall client request :: lines /\
    (lines = [query_log_line (len (py "Who works at ICF?"))
                (len fallback_message) true] \/
     fallback_message = fallback_message /\
     exists e, lines = failure_events (py "Who works at ICF?") e).
Proof.
  apply (query_claude_returns_after_call (failing_world 0)
           (py "Who works at ICF?") sample_data (start new_session)
           fallback_message).
  reflexivity.
Defined.

(** X8.  The audit log shows lengths, not content.  Two calls of the
    dispatcher, each with its credential and its records serialized,
    whose questions have the same length and whose replies have the same
    length (or fail with the same exception) add the same lines to the
    log, whatever the questions, the records and the replies say. *)
Theorem audit_log_shows_lengths_only
    (W1 W2 : World) (q1 q2 : str) (df1 df2 : DataFrame) (m1 m2 : machine)
    (key1 key2 context1 context2 : str) :
  environ_api_key W1 = Some key1 -> key1 <> [] ->
  environ_api_key W2 = Some key2 -> key2 <> [] ->
  json_dumps_records W1 df1 = Ok context1 ->
  json_dumps_records W2 df2 = Ok context2 ->
  len q1 = len q2 ->
  reply_shape (reply_of W1 {| client_api_key := key1 |} (build_request context1 q1))
  = reply_shape (reply_of W2 {| client_api_key := key2 |} (build_request context2 q2)) ->
  log_lines (trace m1) = log_lines (trace m2) ->
  log_lines (trace (snd (query_claude W1 q1 df1 m1)))
  = log_lines (trace (snd (query_claude W2 q2 df2 m2))).
Proof.
  intros Hk1 Hn1 Hk2 Hn2 Hj1 Hj2 Hlen Hshape Hlog.
  rewrite !query_claude_eq, Hk1, Hk2.
  destruct key1 as [|c1 k1]; [congruence|].
  destruct key2 as [|c2 k2]; [congruence|].
  rewrite Hj1, Hj2. cbv zeta.
  destruct (reply_of W1 _ _) as [t1|e1], (reply_of W2 _ _) as [t2|e2];
    cbn [reply_shape] in Hshape; try discriminate.
  - injection Hshape as Hl. cbn [snd logged trace].
    rewrite !log_lines_app, Hlog. f_equal.
    unfold log_lines, query_log_line. cbn [flat_map app]. now rewrite Hlen, Hl.
  - injection Hshape as <-.
    destruct (is_Exception e1); cbn [snd logged trace];
      rewrite !log_lines_app, Hlog; f_equal.
    unfold log_lines, failure_events, query_log_line. cbn [flat_map app].
    now rewrite Hlen.
Qed.

Lemma audit_log_shows_lengths_only_witness :
  log_lines (trace (snd (query_claude (sample_world 0) (py "Who works at ICF?")
                           sample_data (start new_session))))
  = log_lines (trace (snd (query_claude (other_world 0) (py "Who works at IBM?")
                             [] (start opened_session)))).
Proof.
  apply (audit_log_shows_lengths_only
           (sample_world 0) (other_world 0)
           (py "Who works at ICF?") (py "Who works at IBM?")
           sample_data [] (start new_session) (start opened_session)
           (py "sk-test") (py "sk-other")
           (json_dumps_indent2 sample_data) (json_dumps_indent2 []));
    try reflexivity; discriminate.
Defined.

(** ** The ways of the handler *)

(** A rejection leaves a session the limiter can meet as it was. *)
Lemma check_rate_limit_rejected_same (now : datetime) (s : session_state) :
  limiter_reachable s ->
  fst (check_rate_limit now s) = false ->
  snd (check_rate_limit now s) = s.
Proof.
  intros Hreach. pose proof (limiter_reachable_bound s Hreach) as Hbound.
  pose proof (prune_length now (window s)) as Hp.
  rewrite check_rate_limit_eq. cbv zeta.
  destruct (Nat.leb_spec 20 (List.length (prune now (window s)))) as [Hc|Hc];
    cbn [fst snd]; [intros _|discriminate].
  rewrite (prune_same_length now (window s)) by lia.
  apply set_query_times_window.
  unfold window in *. destruct (query_times s); [reflexivity|].
  simpl in Hc. lia.
Qed.

(** X9.  When the model cannot be reached the conversation goes on: for
    a question that has passed the sanitizer and the rate limiter, with
    the credential set and the records serialized, an [Exception] from
    the call (or from reading its reply) still leaves one call made, the
    question and the fallback message appended to the transcript as user
    and assistant, and the run ended by a rerun. *)
Theorem upstream_failure_answers_with_fallback
    (W : World) (text : str) (m : machine) (ms : list ChatMessage)
    (df : DataFrame) (key context : str) (e : exn) :
  3 <= len (sanitize_input (PyStr text)) ->
  fst (check_rate_limit (datetime_now W) (session m)) = true ->
  messages (session m) = Some ms ->
  environ_api_key W = Some key -> key <> [] ->
  read_csv W = Ok df ->
  json_dumps_records W df = Ok context ->
  let q := sanitize_input (PyStr text) in
  let request := build_request context q in
  reply_of W {| client_api_key := key |} request = Raise e ->
  is_Exception e = true ->
  let R := handle_user_input W (Some text) m in
  fst R = Raise RerunException /\
  messages (session (snd R)) =
  Some (ms ++ [ {| role := user; content := q |};
                {| role := assistant; content := fallback_message |} ]) /\
  trace (snd R) = trace m ++ ApiCall {| client_api_key := key |} request
                             :: failure_events q e.
Proof.
  intros Hlong Hfree Hms Hkey Hne Hcsv Hjson q request Hreply Hexc.
  cbv zeta.
  rewrite (handle_user_input_accepted W text m ms df Hlong Hfree Hms Hcsv).
  cbv zeta. fold q. rewrite query_claude_eq, Hkey.
  destruct key as [|c k]; [congruence|]. rewrite Hjson. cbv zeta.
  fold request. rewrite Hreply, Hexc. cbn [fst snd].
  repeat split.
Qed.

Lemma upstream_failure_answers_with_fallback_witness :
  let q := py "Who works at ICF?" in
  let R := handle_user_input (failing_world 0) (Some q) (start opened_session) in
  fst R = Raise RerunException /\
  messages (session (snd R)) =
  Some [ {| role := user; content := q |};
         {| role := assistant; content := fallback_message |} ].
Proof.
  cbv zeta.
  destruct (upstream_failure_answers_with_fallback
              (failing_world 0) (py "Who works at ICF?") (start opened_session)
              [] sample_data (py "sk-test") (json_dumps_indent2 sample_data)
              (Exc "APIConnectionError" (py "Connection error.")))
    as (Hrerun & Hgrow & _);
    [vm_compute; lia | reflexivity | reflexivity | reflexivity | discriminate
     | reflexivity | reflexivity | reflexivity | reflexivity |].
  split; [exact Hrerun|].
  rewrite Hgrow. vm_compute. reflexivity.
Defined.

(** X10.  A question over the limit costs nothing: when the sanitized
    question has three characters or more and the rate limiter rejects
    it, the handler shows the warning, logs it and stops; no call is
    made to the model and the session, transcript and window, is what it
    was. *)
Theorem over_limit_question_stopped
    (W : World) (text : str) (m : machine) :
  limiter_reachable (session m) ->
  3 <= len (sanitize_input (PyStr text)) ->
  fst (check_rate_limit (datetime_now W) (session m)) = false ->
  let R := handle_user_input W (Some text) m in
  fst R = Raise StopException /\
  session (snd R) = session m /\
  trace (snd R) = trace m ++ rate_limit_events /\
  api_calls (trace (snd R)) = api_calls (trace m).
Proof.
  intros Hreach Hlong Hfull. cbv zeta.
  rewrite (handle_user_input_limited W text m Hlong Hfull).
  cbn [fst snd logged session trace].
  rewrite (check_rate_limit_rejected_same _ _ Hreach Hfull).
  repeat split. rewrite api_calls_app. apply app_nil_r.
Qed.

Lemma over_limit_question_stopped_witness :
  let R := handle_user_input (sample_world (20 * minute)%Z)
             (Some (py "Who works at ICF?")) (start busy_session) in
  fst R = Raise StopException /\
  session (snd R) = session (start busy_session) /\
  trace (snd R) = trace (start busy_session) ++ rate_limit_events /\
  api_calls (trace (snd R)) = api_calls (trace (start busy_session)).
Proof.
  assert (Hreach : limiter_reachable (session (start busy_session)))
    by (apply attempts_reachable, reach_new; reflexivity).
  assert (Hlong : 3 <= len (sanitize_input (PyStr (py "Who works at ICF?"))))
    by (vm_compute; lia).
  assert (Hfull : fst (check_rate_limit (datetime_now (sample_world (20 * minute)%Z))
                         (session (start busy_session))) = false)
    by (vm_compute; reflexivity).
  exact (over_limit_question_stopped (sample_world (20 * minute)%Z)
           (py "Who works at ICF?") (start busy_session) Hreach Hlong Hfull).
Defined.

(** ** Runs of the script *)

Lemma window_mark_welcome (s : session_state) :
  window (mark_welcome s) = window s.
Proof.
  unfold window. now rewrite (proj2 (mark_welcome_frame s)).
Qed.

Lemma window_set_messages (v : list ChatMessage) (s : session_state) :
  window (set_messages v s) = window s.
Proof. reflexivity. Qed.

Lemma check_rate_limit_init_session_window (now : datetime) (s : session_state) :
  window (snd (check_rate_limit now (init_session s)))
  = window (snd (check_rate_limit now s)).
Proof.
  rewrite !check_rate_limit_window, check_rate_limit_init_session.
  reflexivity.
Qed.

(** What a run can do to the window and how many calls it can make:
    either [query_times] is as it was and no call was made, or the
    limiter was asked once, at the clock reading of the run, and there
    is at most one call, and none unless the limiter accepted. *)
Lemma run_script_window (W : World) (w : Widgets) (s : session_state) :
  let R := run_script W w s in
  (query_times (session (snd R)) = query_times s /\
   api_calls (trace (snd R)) = []) \/
  (window (session (snd R)) = window (snd (check_rate_limit (datetime_now W) s)) /\
   List.length (api_calls (trace (snd R)))
   <= (if fst (check_rate_limit (datetime_now W) s) then 1 else 0)).
Proof.
  cbv zeta. unfold run_script.
  change {| session := s; trace := [] |} with (start s).
  destruct (script W w (start s)) as [r m'] eqn:HR. cbn [snd].
  rewrite script_eq in HR.
  destruct (read_csv W) as [df|e] eqn:Hcsv;
    [|injection HR as <- <-; left; split; reflexivity].
  destruct (clear_chat_clicked w);
    [injection HR as <- <-; left; split; reflexivity|].
  destruct (negb _ && got_it_clicked w);
    [injection HR as <- <-; left; split; reflexivity|].
  assert (Hhandler :
    let m := snd (handle_user_input W (chat_input w) (start (init_session s))) in
    (query_times (session m) = query_times s /\ api_calls (trace m) = []) \/
    (window (session m) = window (snd (check_rate_limit (datetime_now W) s)) /\
     List.length (api_calls (trace m))
     <= (if fst (check_rate_limit (datetime_now W) s) then 1 else 0))).
  { cbv zeta.
    destruct (handle_user_input_cases W (chat_input w) (start (init_session s))
                (transcript s) df eq_refl Hcsv)
      as [E|[[n E]|[E|(text & _ & _ & Hfree & E)]]]; cbv zeta in E; rewrite E; clear E.
    - left. split; reflexivity.
    - left. split; reflexivity.
    - right. cbn [snd logged session trace start].
      rewrite check_rate_limit_init_session_window. split; [reflexivity|].
      cbn. lia.
    - right. cbn [start session trace] in *.
      rewrite check_rate_limit_init_session in Hfree. rewrite Hfree.
      match goal with |- context [query_claude ?W ?q ?df ?m0] =>
        pose proof (query_claude_session W q df m0) as Hsess;
        destruct (query_claude_added W q df m0) as (added & Hadded & Hone);
        destruct (query_claude W q df m0) as [[response|e] m4]
      end; cbn [fst snd session trace] in *.
      + split.
        * rewrite !window_set_messages, window_mark_welcome.
          apply check_rate_limit_init_session_window.
        * rewrite Hadded. exact Hone.
      + rewrite Hsess. split.
        * rewrite !window_set_messages, window_mark_welcome.
          apply check_rate_limit_init_session_window.
        * rewrite Hadded. exact Hone. }
  destruct (handle_user_input W (chat_input w) (start (init_session s)))
    as [[[]|e] m]; injection HR as <- <-; exact Hhandler.
Qed.

(** X11.  Every call to the model is counted.  No run of the script
    makes more than one call, and a run that makes one has had its
    attempt accepted by the rate limiter and leaves its clock reading at
    the end of the window. *)
Theorem every_call_is_counted (W : World) (w : Widgets) (s : session_state) :
  let R := run_script W w s in
  let now := datetime_now W in
  List.length (api_calls (trace (snd R))) <= 1 /\
  (api_calls (trace (snd R)) <> [] ->
   fst (check_rate_limit now s) = true /\
   window (session (snd R)) = prune now (window s) ++ [now]).
Proof.
  cbv zeta.
  destruct (run_script_window W w s) as [[_ Hnone]|[Hwin Hcalls]].
  - rewrite Hnone. split; [simpl; lia|]. intros H. now destruct H.
  - rewrite check_rate_limit_window in Hwin.
    destruct (fst (check_rate_limit (datetime_now W) s)).
    + split; [exact Hcalls|]. intros _. split; [reflexivity|exact Hwin].
    + split; [lia|]. intros H.
      destruct (api_calls (trace (snd (run_script W w s)))); [now destruct H|].
      simpl in Hcalls. lia.
Qed.

Lemma every_call_is_counted_witness :
  let R := run_script (sample_world (5 * minute)%Z)
             (chat_submit (py "Who works at ICF?")) new_session in
  window (session (snd R)) = [(5 * minute)%Z].
Proof.
  cbv zeta.
  destruct (every_call_is_counted (sample_world (5 * minute)%Z)
              (chat_submit (py "Who works at ICF?")) new_session)
    as [_ Hcounted].
  destruct Hcounted as [_ Hwindow]; [vm_compute; discriminate|].
  exact Hwindow.
Defined.

(** X12.  The transcript is append-only.  A run in which the clear button
    was not pressed leaves the transcript it found, followed by nothing,
    by the sanitized question alone (when the dispatcher raised) or by
    the sanitized question as user and a reply as assistant. *)
Theorem transcript_append_only (W : World) (w : Widgets) (s : session_state) :
  clear_chat_clicked w = false ->
  let R := run_script W w s in
  exists added,
    transcript (session (snd R)) = transcript s ++ added /\
    (added = [] \/
     exists text,
       chat_input w = Some text /\
       let asked := {| role := user; content := sanitize_input (PyStr text) |} in
       added = [asked] \/
       exists reply, added = [asked; {| role := assistant; content := reply |}]).
Proof.
  intros Hclear. cbv zeta. unfold run_script.
  change {| session := s; trace := [] |} with (start s).
  destruct (script W w (start s)) as [r m'] eqn:HR. cbn [snd].
  rewrite script_eq, Hclear in HR.
  assert (Hsame : forall q wf,
             transcript {| messages := Some (transcript s);
                           query_times := q; shown_welcome := wf |}
             = transcript s ++ []) by (intros; symmetry; apply app_nil_r).
  destruct (read_csv W) as [df|e] eqn:Hcsv;
    [|injection HR as <- <-; exists []; split; [apply Hsame|now left]].
  destruct (negb _ && got_it_clicked w);
    [injection HR as <- <-; exists []; split; [apply Hsame|now left]|].
  assert (Hhandler :
    let m := snd (handle_user_input W (chat_input w) (start (init_session s))) in
    exists added,
      transcript (session m) = transcript s ++ added /\
      (added = [] \/
       exists text,
         chat_input w = Some text /\
         let asked := {| role := user; content := sanitize_input (PyStr text) |} in
         added = [asked] \/
         exists reply, added = [asked; {| role := assistant; content := reply |}])).
  { cbv zeta.
    destruct (handle_user_input_cases W (chat_input w) (start (init_session s))
                (transcript s) df eq_refl Hcsv)
      as [E|[[n E]|[E|(text & Hin & _ & _ & E)]]]; cbv zeta in E; rewrite E; clear E.
    - exists []. split; [apply Hsame|now left].
    - exists []. split; [apply Hsame|now left].
    - exists []. split; [|now left].
      cbn [snd logged session start]. unfold transcript.
      rewrite (proj1 (check_rate_limit_frame _ _)). cbn. symmetry. apply app_nil_r.
    - match goal with |- context [query_claude ?W ?q ?df ?m0] =>
        pose proof (query_claude_session W q df m0) as Hsess;
        destruct (query_claude W q df m0) as [[response|e] m4]
      end; cbn [fst snd session] in *.
      + eexists. split; [reflexivity|]. right. exists text. split; [exact Hin|].
        right. exists response. reflexivity.
      + rewrite Hsess. eexists. split; [reflexivity|]. right. exists text.
        split; [exact Hin|]. left. reflexivity. }
  destruct (handle_user_input W (chat_input w) (start (init_session s)))
    as [[[]|e] m]; injection HR as <- <-; exact Hhandler.
Qed.

Lemma transcript_append_only_witness :
  exists added,
    transcript (session (snd (run_script (keyless_world 0)
                                (chat_submit (py "Who works at ICF?"))
                                opened_session)))
    = transcript opened_session ++ added /\
    (added = [] \/
     exists text,
       chat_input (chat_submit (py "Who works at ICF?")) = Some text /\
       let asked := {| role := user; content := sanitize_input (PyStr text) |} in
       added = [asked] \/
       exists reply, added = [asked; {| role := assistant; content := reply |}]).
Proof.
  apply (transcript_append_only (keyless_world 0)
           (chat_submit (py "Who works at ICF?")) opened_session).
  reflexivity.
Defined.

(** X13.  Clearing the chat clears the chat and nothing else.  When the
    directory loads and the clear button was pressed, the run ends in a
    rerun with an empty transcript; the window of the rate limiter and
    the welcome flag are what they were, and whatever the chat box held
    is not handled: nothing is shown, logged or sent. *)
Theorem clear_chat_keeps_rate_window
    (W : World) (w : Widgets) (s : session_state) (df : DataFrame) :
  read_csv W = Ok df ->
  clear_chat_clicked w = true ->
  let R := run_script W w s in
  fst R = Rerun /\
  messages (session (snd R)) = Some [] /\
  query_times (session (snd R)) = query_times s /\
  shown_welcome (session (snd R)) = shown_welcome s /\
  trace (snd R) = [].
Proof.
  intros Hcsv Hclear. cbv zeta. unfold run_script.
  change {| session := s; trace := [] |} with (start s).
  rewrite script_eq, Hcsv, Hclear. repeat split.
Qed.

Lemma clear_chat_keeps_rate_window_witness :
  let w := {| company_search := [];
              clear_chat_clicked := true;
              got_it_clicked := false;
              chat_input := Some (py "Who works at ICF?") |} in
  let R := run_script (sample_world (20 * minute)%Z) w busy_session in
  fst R = Rerun /\
  messages (session (snd R)) = Some [] /\
  query_times (session (snd R)) = query_times busy_session /\
  shown_welcome (session (snd R)) = shown_welcome busy_session /\
  trace (snd R) = [].
Proof.
  apply (clear_chat_keeps_rate_window (sample_world (20 * minute)%Z) _
           busy_session sample_data); reflexivity.
Defined.

(** X14.  A directory that cannot be read ends every run before the
    chat.  When [pd.read_csv] raises, the run ends with that exception
    at the first load, in the sidebar: a submitted question is not
    sanitized, counted, logged or sent, and the transcript and the
    window are what they were. *)
Theorem unreadable_directory_ends_run
    (W : World) (w : Widgets) (s : session_state) (e : exn) :
  read_csv W = Raise e ->
  let R := run_script W w s in
  fst R = outcome_of (Raise e) /\
  trace (snd R) = [] /\
  transcript (session (snd R)) = transcript s /\
  query_times (session (snd R)) = query_times s.
Proof.
  intros Hcsv. cbv zeta. unfold run_script.
  change {| session := s; trace := [] |} with (start s).
  rewrite script_eq, Hcsv. repeat split.
Qed.

(** The clock readings of the calls of a run, as [play] lists them. *)
Lemma call_times_in_run (now : datetime) (calls : list Request) (t : datetime)
    (accepted : bool) :
  List.length calls <= (if accepted then 1 else 0) ->
  List.length (prune t (map (fun _ => now) calls))
  <= List.length (prune t (if accepted then [now] else [])).
Proof.
  destruct accepted, calls as [|r [|r' calls]]; simpl; intros H; try lia.
Qed.

(** X15.  The limit holds across runs.  In a session played over any
    number of runs of the script, in any worlds, from a state the rate
    limiter can meet, the calls made to the model that are less than one
    hour old at a time [t] not before the clock reading of any run,
    together with the timestamps held at the start that are less than
    one hour old at [t], number at most 20; and the window never holds
    more than 20 timestamps. *)
Theorem calls_per_hour_bounded
    (runs : list (World * Widgets)) (s : session_state) (t : datetime) :
  limiter_reachable s ->
  Forall (fun r => (datetime_now (fst r) <= t)%Z) runs ->
  List.length (prune t (snd (play runs s)))
  + List.length (prune t (window s)) <= 20 /\
  List.length (window (fst (play runs s))) <= 20.
Proof.
  intros Hreach Hpast. revert s Hreach.
  induction Hpast as [|[W w] runs Hnow _ IH]; intros s Hreach; cbn [play].
  - pose proof (limiter_reachable_bound s Hreach).
    pose proof (prune_length t (window s)). cbn. lia.
  - cbv zeta. cbn [fst snd] in *.
    destruct (IH _ (run_script_reachable W w s Hreach)) as [IHcalls IHwin].
    split; [|exact IHwin].
    rewrite prune_app, length_app.
    destruct (run_script_window W w s) as [[Hq Hnone]|[Hwin Hcalls]].
    + rewrite Hnone. cbn [map prune filter List.length].
      unfold window in IHcalls. rewrite Hq in IHcalls. exact IHcalls.
    + pose proof (call_times_in_run (datetime_now W) _ t _ Hcalls) as Hle.
      rewrite Hwin, check_rate_limit_window, prune_app, prune_prune,
        length_app in IHcalls by exact Hnow.
      lia.
Qed.

Lemma calls_per_hour_bounded_witness :
  let runs :=
    [ (sample_world (1 * minute)%Z, chat_submit (py "Who works at ICF?"));
      (sample_world (2 * minute)%Z, chat_submit (py "hi"));
      (failing_world (3 * minute)%Z, chat_submit (py "Who has worked in finance?")) ] in
  List.length (prune (10 * minute)%Z (snd (play runs new_session))) <= 20 /\
  snd (play runs new_session) = [(1 * minute)%Z; (3 * minute)%Z].
Proof.
  cbv zeta. split; [|vm_compute; reflexivity].
  match goal with |- List.length (prune ?t (snd (play ?runs ?s))) <= 20 =>
    destruct (calls_per_hour_bounded runs s t) as [H _]
  end.
  - apply reach_new. reflexivity.
  - repeat (apply Forall_cons || apply Forall_nil); vm_compute; discriminate.
  - lia.
Defined.

Lemma unreadable_directory_ends_run_witness :
  let R := run_script (missing_csv_world 0)
             (chat_submit (py "Who works at ICF?")) new_session in
  fst R = Crashed (Exc "FileNotFoundError"
                     (py "[Errno 2] No such file or directory: 'student_data.csv'")) /\
  trace (snd R) = [] /\
  transcript (session (snd R)) = transcript new_session /\
  query_times (session (snd R)) = query_times new_session.
Proof.
  apply (unreadable_directory_ends_run (missing_csv_world 0)
           (chat_submit (py "Who works at ICF?")) new_session
           (Exc "FileNotFoundError"
              (py "[Errno 2] No such file or directory: 'student_data.csv'"))).
  reflexivity.
Defined.

(** ** Company directory *)

Lemma str_eqb_eq (a b : str) : str_eqb a b = true <-> a = b.
Proof.
  unfold str_eqb. destruct (list_eq_dec N.eq_dec a b); split; congruence.
Qed.

Lemma str_leb_refl (a : str) : str_leb a a = true.
Proof.
  induction a as [|x a IH]; [reflexivity|]. cbn [str_leb].
  now rewrite N.eqb_refl, IH, orb_true_r.
Qed.

Lemma str_leb_total (a b : str) : str_leb a b = false -> str_leb b a = true.
Proof.
  revert b. induction a as [|x a IH]; intros [|y b]; cbn [str_leb];
    try discriminate; try reflexivity.
  intros H. apply orb_false_iff in H as [Hlt H].
  apply N.ltb_ge in Hlt.
  destruct (N.eqb_spec x y) as [->|Hne].
  - cbn [andb] in H. rewrite N.eqb_refl, (IH b H). apply orb_true_r.
  - assert (Hyx : (y <? x)%N = true) by (apply N.ltb_lt; lia).
    now rewrite Hyx.
Qed.

Lemma str_leb_trans (a b c : str) :
  str_leb a b = true -> str_leb b c = true -> str_leb a c = true.
Proof.
  revert b c. induction a as [|x a IH]; intros [|y b] [|z c]; cbn [str_leb];
    try discriminate; try reflexivity.
  intros Hab Hbc.
  apply orb_true_iff in Hab. apply orb_true_iff in Hbc.
  assert (Hlt : forall u v : N, (u < v)%N -> (u <? v)%N || ((u =? v)%N && str_leb a c) = true)
    by (intros u v H; apply N.ltb_lt in H; now rewrite H).
  destruct Hab as [Hxy|Hab]; destruct Hbc as [Hyz|Hbc];
    try (apply andb_true_iff in Hab as [Exy Hab]; apply N.eqb_eq in Exy);
    try (apply andb_true_iff in Hbc as [Eyz Hbc]; apply N.eqb_eq in Eyz);
    try apply N.ltb_lt in Hxy; try apply N.ltb_lt in Hyz; subst.
  - apply Hlt. lia.
  - apply Hlt. exact Hxy.
  - apply Hlt. exact Hyz.
  - rewrite N.eqb_refl, (IH b c Hab Hbc). apply orb_true_r.
Qed.

Lemma unique_In (values : list str) (y : str) :
  In y (unique values) <-> In y values.
Proof.
  induction values as [|x rest IH]; [reflexivity|]. cbn [unique In].
  rewrite filter_In, IH. split.
  - intros [H|[H _]]; [now left | now right].
  - intros [H|H]; [now left|].
    destruct (list_eq_dec N.eq_dec x y) as [E|Hne]; [now left|].
    right. split; [exact H|].
    apply negb_true_iff. destruct (str_eqb y x) eqn:E; [|reflexivity].
    apply str_eqb_eq in E. congruence.
Qed.

Lemma NoDup_filter_str (f : str -> bool) (l : list str) :
  NoDup l -> NoDup (filter f l).
Proof.
  induction 1 as [|x l Hx _ IH]; cbn [filter]; [constructor|].
  destruct (f x); [|exact IH].
  constructor; [|exact IH]. intros H. apply filter_In in H as [H _]. now apply Hx.
Qed.

Lemma unique_NoDup (values : list str) : NoDup (unique values).
Proof.
  induction values as [|x rest IH]; cbn [unique]; constructor.
  - intros H. apply filter_In in H as [_ H].
    apply negb_true_iff in H.
    assert (E : str_eqb x x = true) by now apply str_eqb_eq.
    congruence.
  - now apply NoDup_filter_str.
Qed.

Lemma insert_sorted_perm (x : str) (l : list str) :
  Permutation (x :: l) (insert_sorted x l).
Proof.
  induction l as [|y l IH]; cbn [insert_sorted]; [apply Permutation_refl|].
  destruct (str_leb x y); [apply Permutation_refl|].
  eapply perm_trans; [apply perm_swap|]. now apply perm_skip.
Qed.

Lemma sorted_perm (values : list str) : Permutation values (sorted values).
Proof.
  induction values as [|x rest IH]; cbn [sorted]; [constructor|].
  eapply perm_trans; [apply perm_skip, IH | apply insert_sorted_perm].
Qed.

Lemma insert_sorted_Sorted (x : str) (l : list str) :
  Sorted (fun a b => str_leb a b = true) l ->
  Sorted (fun a b => str_leb a b = true) (insert_sorted x l).
Proof.
  induction 1 as [|y l Hl IH Hhd]; cbn [insert_sorted].
  - repeat constructor.
  - destruct (str_leb x y) eqn:Hxy.
    + constructor; [now constructor|]. now constructor.
    + constructor; [exact IH|].
      apply str_leb_total in Hxy.
      destruct l as [|z l]; cbn [insert_sorted]; [now constructor|].
      destruct (str_leb x z); constructor; [exact Hxy|].
      now inversion Hhd.
Qed.

Lemma sorted_Sorted (values : list str) :
  StronglySorted (fun a b => str_leb a b = true) (sorted values).
Proof.
  apply Sorted_StronglySorted.
  - intros a b c. apply str_leb_trans.
  - induction values as [|x rest IH]; cbn [sorted]; [constructor|].
    now apply insert_sorted_Sorted.
Qed.

Lemma all_companies_In (df : DataFrame) (c : str) :
  In c (all_companies df) <-> exists r, In r df /\ current_company r = c.
Proof.
  unfold all_companies. split.
  - intros H. apply (Permutation_in _ (Permutation_sym (sorted_perm _))) in H.
    apply unique_In, in_map_iff in H. destruct H as (r & E & Hr). now exists r.
  - intros (r & Hr & E). apply (Permutation_in _ (sorted_perm _)).
    apply unique_In, in_map_iff. now exists r.
Qed.

Lemma all_companies_NoDup (df : DataFrame) : NoDup (all_companies df).
Proof.
  unfold all_companies.
  apply (Permutation_NoDup (sorted_perm _)), unique_NoDup.
Qed.

Lemma company_count_positive (df : DataFrame) (c : str) :
  (exists r, In r df /\ current_company r = c) -> 1 <= company_count df c.
Proof.
  intros (r & Hr & E). unfold company_count.
  assert (H : In r (filter (fun r => str_eqb (current_company r) c) df))
    by (apply filter_In; split; [exact Hr | now apply str_eqb_eq]).
  destruct (filter _ df); [destruct H | simpl; lia].
Qed.

(** X16.  The directory lists every company once.  The list under the
    search box, before any search, is in the order of [sorted], holds no
    company twice, and holds a company exactly when a student of the
    directory works there. *)
Theorem directory_lists_each_company_once (df : DataFrame) :
  StronglySorted (fun a b => str_leb a b = true) (all_companies df) /\
  NoDup (all_companies df) /\
  (forall c, In c (all_companies df) <->
             exists r, In r df /\ current_company r = c).
Proof.
  split; [apply sorted_Sorted|]. split; [apply all_companies_NoDup|].
  apply all_companies_In.
Qed.

Lemma list_sum_cons (n : nat) (l : list nat) :
  list_sum (n :: l) = n + list_sum l.
Proof. reflexivity. Qed.

Lemma indicator_sum_absent (x : str) (companies : list str) :
  ~ In x companies ->
  list_sum (map (fun c => if str_eqb x c then 1 else 0) companies) = 0.
Proof.
  induction companies as [|d l IH]; intros Hx; [reflexivity|].
  rewrite map_cons, list_sum_cons. destruct (str_eqb x d) eqn:E.
  - apply str_eqb_eq in E. subst. exfalso. apply Hx. now left.
  - rewrite IH; [reflexivity|]. intros H. apply Hx. now right.
Qed.

(** Among companies listed once, the company of a student is met once. *)
Lemma indicator_sum (x : str) (companies : list str) :
  NoDup companies -> In x companies ->
  list_sum (map (fun c => if str_eqb x c then 1 else 0) companies) = 1.
Proof.
  induction 1 as [|c companies Hc Hnd IH]; intros Hin; [destruct Hin|].
  rewrite map_cons, list_sum_cons. destruct Hin as [->|Hin].
  - replace (str_eqb x x) with true by (symmetry; now apply str_eqb_eq).
    now rewrite (indicator_sum_absent x companies Hc).
  - destruct (str_eqb x c) eqn:E.
    + apply str_eqb_eq in E. subst. contradiction.
    + now rewrite (IH Hin).
Qed.

Lemma company_count_nil (companies : list str) :
  list_sum (map (company_count []) companies) = 0.
Proof.
  induction companies as [|c companies IH]; [reflexivity|].
  rewrite map_cons, list_sum_cons, IH. reflexivity.
Qed.

Lemma company_count_cons (r : StudentRecord) (df : DataFrame) (c : str) :
  company_count (r :: df) c
  = (if str_eqb (current_company r) c then 1 else 0) + company_count df c.
Proof.
  unfold company_count. cbn [filter].
  destruct (str_eqb (current_company r) c); reflexivity.
Qed.

Lemma company_count_split (r : StudentRecord) (df : DataFrame)
    (companies : list str) :
  list_sum (map (company_count (r :: df)) companies)
  = list_sum (map (fun c => if str_eqb (current_company r) c then 1 else 0)
                companies)
    + list_sum (map (company_count df) companies).
Proof.
  induction companies as [|c l IH]; [reflexivity|].
  rewrite !map_cons, !list_sum_cons, IH, company_count_cons. lia.
Qed.

Lemma company_count_sum (df : DataFrame) (companies : list str) :
  NoDup companies ->
  (forall r, In r df -> In (current_company r) companies) ->
  list_sum (map (company_count df) companies) = List.length df.
Proof.
  intros Hnd. induction df as [|r df IH]; intros Hall.
  - apply company_count_nil.
  - rewrite company_count_split, indicator_sum, IH.
    + reflexivity.
    + intros r' Hr'. apply Hall. now right.
    + exact Hnd.
    + apply Hall. now left.
Qed.

(** X17.  The counts of the directory add up.  Every company listed has
    at least one student, and the numbers of students of the companies
    listed, before any search, add up to the number of students. *)
Theorem company_counts_add_up (df : DataFrame) :
  Forall (fun c => 1 <= company_count df c) (all_companies df) /\
  list_sum (map (company_count df) (all_companies df)) = List.length df.
Proof.
  split.
  - apply Forall_forall. intros c Hc.
    apply company_count_positive. now apply all_companies_In.
  - apply company_count_sum; [apply all_companies_NoDup|].
    intros r Hr. apply all_companies_In. now exists r.
Qed.

Lemma StronglySorted_filter_str (R : str -> str -> Prop) (f : str -> bool)
    (l : list str) :
  StronglySorted R l -> StronglySorted R (filter f l).
Proof.
  induction 1 as [|x l _ IH Hall]; cbn [filter]; [constructor|].
  destruct (f x); [|exact IH].
  constructor; [exact IH|].
  apply Forall_forall. intros y Hy. apply filter_In in Hy as [Hy _].
  rewrite Forall_forall in Hall. now apply Hall.
Qed.

(** X18.  Searching narrows the directory and does nothing else to it.
    Whatever is typed in the search box, the companies shown are in the
    order of [sorted], none twice, each with at least one student; with
    a search term they are the companies of the full list whose name in
    lower case contains the term in lower case.  The expander writes one
    line for each of them, in that order: the bullet and the name for a
    company of one student, the bullet, the name in bold and the number
    of students otherwise; when no company is shown it writes the one
    line that nothing matches, and it writes that line in no other
    case. *)
Theorem search_narrows_directory
    (str_lower : str -> str) (df : DataFrame) (search_term : str) :
  let shown := filtered_companies str_lower df search_term in
  let listing := company_listing str_lower df search_term in
  let no_match := py "*No companies found matching your search*" in
  StronglySorted (fun a b => str_leb a b = true) shown /\
  NoDup shown /\
  Forall (fun c => In c (all_companies df) /\ 1 <= company_count df c) shown /\
  (search_term <> [] ->
   forall c, In c shown <->
             In c (all_companies df) /\
             contains (str_lower search_term) (str_lower c) = true) /\
  List.length listing = Nat.max 1 (List.length shown) /\
  listing =
  match shown with
  | [] => [no_match]
  | _ :: _ =>
      map (fun c =>
             if company_count df c =? 1
             then [8226%N] ++ py " " ++ c
             else [8226%N] ++ py " **" ++ c ++ py "** ("
                  ++ format_int (company_count df c) ++ py " students)")
        shown
  end /\
  (listing = [no_match] <-> shown = []).
Proof.
  cbv zeta.
  assert (Hsub : forall c, In c (filtered_companies str_lower df search_term) ->
                           In c (all_companies df)).
  { intros c. unfold filtered_companies.
    destruct (truthy (PyStr search_term)); [|trivial].
    intros H. now apply filter_In in H. }
  split; [|split; [|split; [|split; [|split; [|split]]]]].
  - unfold filtered_companies. destruct (truthy (PyStr search_term)).
    + apply StronglySorted_filter_str, sorted_Sorted.
    + apply sorted_Sorted.
  - unfold filtered_companies. destruct (truthy (PyStr search_term)).
    + apply NoDup_filter_str, all_companies_NoDup.
    + apply all_companies_NoDup.
  - apply Forall_forall. intros c Hc. split; [now apply Hsub|].
    apply company_count_positive, all_companies_In. now apply Hsub.
  - intros Hne c. unfold filtered_companies.
    destruct search_term as [|x term]; [congruence|].
    cbn [truthy].
    apply (filter_In
             (fun c => contains (str_lower (x :: term)) (str_lower c))
             c (all_companies df)).
  - unfold company_listing.
    destruct (filtered_companies str_lower df search_term) as [|c rest];
      [reflexivity|].
    rewrite length_map. cbn [List.length]. lia.
  - unfold company_listing.
    destruct (filtered_companies str_lower df search_term) as [|c rest];
      reflexivity.
  - unfold company_listing.
    destruct (filtered_companies str_lower df search_term) as [|c rest].
    + split; reflexivity.
    + split; [|discriminate]. intros H. exfalso.
      cbn [map] in H. injection H as H _. unfold company_line in H.
      cbv zeta in H.
      destruct (company_count df c =? 1); cbn [app] in H;
        unfold py in H; cbn [list_ascii_of_string map] in H;
        injection H as H _; vm_compute in H; discriminate H.
Qed.

Lemma search_narrows_directory_witness :
  In (py "Capital One") (filtered_companies lower sample_data (py "CAP")) /\
  company_listing lower sample_data (py "zzz")
  = [py "*No companies found matching your search*"].
Proof.
  split.
  - destruct (search_narrows_directory lower sample_data (py "CAP"))
      as (_ & _ & _ & Hsearch & _).
    apply Hsearch; [discriminate|].
    split; [vm_compute; left; reflexivity | vm_compute; reflexivity].
  - destruct (search_narrows_directory lower sample_data (py "zzz"))
      as (_ & _ & _ & _ & _ & _ & Hnone).
    apply Hnone. vm_compute. reflexivity.
Defined.

Example directory_of_sample_data :
  all_companies sample_data = [py "Capital One"; py "ICF"] /\
  filtered_companies lower sample_data (py "CAP") = [py "Capital One"] /\
  company_listing lower sample_data (py "icf") = [[8226%N] ++ py " ICF"] /\
  company_listing lower sample_data (py "zzz")
  = [py "*No companies found matching your search*"].
Proof. vm_compute. repeat split. Qed.

(** ** The welcome flag *)



(** ** Reading the audit log back *)

Lemma py_inj (a b : string) : py a = py b -> a = b.
Proof.
  unfold py. intros H.
  rewrite <- (string_of_list_ascii_of_string a),
          <- (string_of_list_ascii_of_string b).
  f_equal. revert H.
  generalize (list_ascii_of_string a), (list_ascii_of_string b).
  induction l as [|x l IH]; intros [|y l']; cbn [map]; try discriminate;
    [reflexivity|].
  intros H. injection H as Hxy Hrest. f_equal; [|now apply IH].
  rewrite <- (ascii_N_embedding x), <- (ascii_N_embedding y). now rewrite Hxy.
Qed.

Lemma format_int_inj (a b : nat) : format_int a = format_int b -> a = b.
Proof.
  unfold format_int. intros H. apply py_inj in H.
  apply DecimalNat.Unsigned.to_uint_inj.
  assert (E : Some (Nat.to_uint a) = Some (Nat.to_uint b))
    by (rewrite <- !NilEmpty.usu; now rewrite H).
  now injection E.
Qed.

Lemma format_int_digits (n : nat) : Forall is_digit (format_int n).
Proof.
  unfold format_int. generalize (Nat.to_uint n).
  induction u; unfold py in *; cbn [NilEmpty.string_of_uint list_ascii_of_string map];
    constructor; try assumption; unfold is_digit; vm_compute; split; discriminate.
Qed.

(** Digits followed by something that is not a digit can be told from
    what follows. *)
Lemma digits_then (d1 d2 : str) (c : char) (r1 r2 : str) :
  Forall is_digit d1 -> Forall is_digit d2 -> ~ is_digit c ->
  d1 ++ c :: r1 = d2 ++ c :: r2 -> d1 = d2 /\ r1 = r2.
Proof.
  intros H1. revert d2. induction H1 as [|x d1 Hx _ IH]; intros d2 H2 Hc E.
  - destruct H2 as [|y d2 Hy _]; cbn [app] in E.
    + injection E as ->. now split.
    + injection E as -> _. contradiction.
  - destruct H2 as [|y d2 Hy H2]; cbn [app] in E.
    + injection E as -> _. contradiction.
    + injection E as -> E. destruct (IH d2 H2 Hc E) as [-> ->]. now split.
Qed.

Lemma query_line_inj (a b a' b' : nat) (success success' : bool) :
  py "Query - Status: " ++ (if success then py "SUCCESS" else py "FAILED")
    ++ py ", Query Length: " ++ format_int a
    ++ py ", Response Length: " ++ format_int b
  = py "Query - Status: " ++ (if success' then py "SUCCESS" else py "FAILED")
    ++ py ", Query Length: " ++ format_int a'
    ++ py ", Response Length: " ++ format_int b' ->
  a = a' /\ b = b' /\ success = success'.
Proof.
  intros H. apply app_inv_head in H.
  assert (Hsame : success = success').
  { destruct success, success'; try reflexivity; exfalso; revert H;
      vm_compute; discriminate. }
  subst success'. apply app_inv_head in H. apply app_inv_head in H.
  change (py ", Response Length: ") with (44%N :: py " Response Length: ") in H.
  cbn [app] in H.
  apply digits_then in H as [Ha Hb];
    try apply format_int_digits;
    [|unfold is_digit; intros [Hlow _]; revert Hlow; vm_compute; congruence].
  apply app_inv_head in Hb.
  split; [now apply format_int_inj|]. split; [now apply format_int_inj|reflexivity].
Qed.

(** X20.  The audit line can be read back.  What [log_query] appends to
    the log determines the status and both lengths: two calls that leave
    the same log were made with the same arguments. *)
Theorem log_query_line_decodes
    (a b a' b' : nat) (success success' : bool) (m : machine) :
  snd (log_query a b success m) = snd (log_query a' b' success' m) ->
  a = a' /\ b = b' /\ success = success'.
Proof.
  intros H. apply (f_equal trace) in H.
  change (trace m ++
            [Logged INFO
               (py "Query - Status: "
                ++ (if success then py "SUCCESS" else py "FAILED")
                ++ py ", Query Length: " ++ format_int a
                ++ py ", Response Length: " ++ format_int b)]
          = trace m ++
            [Logged INFO
               (py "Query - Status: "
                ++ (if success' then py "SUCCESS" else py "FAILED")
                ++ py ", Query Length: " ++ format_int a'
                ++ py ", Response Length: " ++ format_int b')]) in H.
  apply app_inv_head in H.
  apply (query_line_inj a b a' b' success success'). congruence.
Qed.

Lemma log_query_line_decodes_witness :
  17 = 17 /\ 38 = 38 /\ true = true.
Proof.
  apply (log_query_line_decodes 17 38 17 38 true true (start new_session)).
  reflexivity.
Defined.
